(** * FIFA 2026 Schedule Builder backend: a shallow embedding

    The development follows [Backend/server.py] (authentication, token
    handling, schedules, push tokens, routing) and the two provider
    services [Backend/traffic_service.py] and [Backend/weather_service.py].

    Conventions.
    - The SQLite connection is an explicit [db] value threaded through the
      handlers; a handler returns the store it leaves behind together with
      its Python-level outcome.
    - The clock ([datetime.utcnow()]) is an explicit argument [now], in
      whole seconds since the epoch, the granularity of a JWT NumericDate;
      a request is served at one clock reading.  The text of a reading
      ([str_datetime]) has the microseconds of [datetime.utcnow()] in the
      code and the whole seconds only here, so that requests served within
      one second are not told apart; the statements about schedule ids
      assume, where it matters, that the new id is not in the table yet.
    - Library functions whose internals are not part of the repository
      (md5, sha256, HMAC-SHA256, the textual form of a datetime) are the
      fields of the interface [Libs]; nothing is assumed about them.
    - The traffic ratio, its level and the conversions of the weather
      service to [int] are computed as Python computes them, on integers
      of any size and binary64 floats, the latter as [SpecFloat] specifies
      them. *)

From Stdlib Require Import ZArith List String Ascii Bool Lia.
From Stdlib Require Import QArith Qround.
From Stdlib Require Import DecimalString DecimalPos DecimalZ.
From Stdlib Require Import SpecFloat.
Import ListNotations.

Local Open Scope string_scope.
Local Open Scope Z_scope.

(** ** Outcomes of a request handler *)

(** Exceptions no handler of [server.py] catches; the framework answers
    them with a 500.  [IntegrityError] is [sqlite3.IntegrityError], a
    violated PRIMARY KEY or UNIQUE constraint; [JSONDecodeError] comes from
    [json.loads]; [AttributeError] comes from the [except] clause of
    [verify_token] that names [jwt.JWTError]. *)
Inductive uncaught : Type :=
| IntegrityError
| JSONDecodeError
| AttributeError.

(** What a FastAPI handler of [server.py] can end with: a returned value, a
    raised [HTTPException(status_code, detail)], or an exception nobody
    catches. *)
Inductive outcome (A : Type) : Type :=
| Return (a : A)
| HTTPException (status_code : Z) (detail : string)
| Uncaught (e : uncaught).

Arguments Return {A} a.
Arguments HTTPException {A} status_code detail.
Arguments Uncaught {A} e.

(** ** JSON Web Tokens *)

(** The claim set [{"sub": ..., "exp": ...}] of a token: the two claims
    [create_access_token] writes, each of which a presented token may
    lack.  Claim sets with further registered claims ([nbf], [aud],
    [iss]) are not represented. *)
Record claims : Type := mk_claims {
  sub : option string;
  exp : option Z
}.

(** A presented token, after the split into its three segments: either it
    does not decode at all, or it carries a header algorithm, a claim set
    and a signature. *)
Inductive token : Type :=
| Garbage (raw : string)
| JWS (alg : string) (payload : claims) (signature : string).

(** The exceptions of [jwt.decode] (PyJWT, which [server.py] imports as
    [jwt]).  The first has an [except] clause of its own in
    [verify_token]; the others are the decoding errors the clause
    [except jwt.JWTError] is written for. *)
Inductive jwt_error : Type :=
| ExpiredSignatureError
| InvalidSignatureError
| InvalidAlgorithmError
| DecodeError.

(** Library functions used by [server.py]. *)
Class Libs : Type := {
  (** [hashlib.md5(s.encode()).hexdigest()] *)
  md5_hexdigest : string -> string;
  (** [hashlib.sha256(s.encode()).hexdigest()] *)
  sha256_hexdigest : string -> string;
  (** the HS256 signature of a header algorithm and claim set under a key *)
  hs256 : string -> string -> claims -> string;
  (** [str(datetime)], as used inside an f-string *)
  str_datetime : Z -> string;
  (** the compact serialisation of a token, the string sent to the client *)
  compact : token -> string
}.

(** Absence of a collision of [h] at the pair [(a, b)]. *)
Definition collision_free {A : Type} (h : A -> string) (a b : A) : Prop :=
  h a = h b -> a = b.

(** ** Configuration *)

Definition SECRET_KEY : string := "fifa-2026-secret-key-change-in-production".
Definition ALGORITHM : string := "HS256".
Definition ACCESS_TOKEN_EXPIRE_MINUTES : Z := 60 * 24 * 7.

(** [timedelta(minutes=m)] in seconds. *)
Definition timedelta_minutes (m : Z) : Z := 60 * m.

Section Tokens.
Context {L : Libs}.

(** [jwt.encode(payload, key, algorithm=algorithm)] *)
Definition jwt_encode (payload : claims) (key algorithm : string) : token :=
  JWS algorithm payload (hs256 key algorithm payload).

(** [jwt.decode(token, key, algorithms=algorithms)] at clock reading
    [now]: the header algorithm must be an allowed one, the signature is
    checked next, then the expiry when the claim set has one.  A token is
    taken as expired from the instant [exp] on. *)
Definition jwt_decode (t : token) (key : string) (algorithms : list string)
    (now : Z) : jwt_error + claims :=
  match t with
  | Garbage _ => inl DecodeError
  | JWS alg payload signature =>
      if negb (existsb (String.eqb alg) algorithms) then
        inl InvalidAlgorithmError
      else if negb (String.eqb signature (hs256 key alg payload)) then
        inl InvalidSignatureError
      else
        match exp payload with
        | Some e => if e <=? now then inl ExpiredSignatureError
                    else inr payload
        | None => inr payload
        end
  end.

(** [create_access_token(user_id)] *)
Definition create_access_token (user_id : string) (now : Z) : token :=
  let expire := now + timedelta_minutes ACCESS_TOKEN_EXPIRE_MINUTES in
  let to_encode := {| sub := Some user_id; exp := Some expire |} in
  jwt_encode to_encode SECRET_KEY ALGORITHM.

(** [verify_token(token)].  PyJWT has no attribute [JWTError]: when an
    exception other than [ExpiredSignatureError] leaves the [try] block, a
    decoding error or the [HTTPException] raised there for a missing
    [sub], the first clause does not match and evaluating the class of
    the second raises [AttributeError], which nothing catches. *)
Definition verify_token (t : token) (now : Z) : outcome string :=
  match jwt_decode t SECRET_KEY [ALGORITHM] now with
  | inr payload =>
      match sub payload with
      | None => Uncaught AttributeError
      | Some user_id => Return user_id
      end
  | inl ExpiredSignatureError => HTTPException 401 "Token expired"
  | inl _ => Uncaught AttributeError
  end.

End Tokens.

(** ** HMAC, the signature of HS256 *)

(** PyJWT signs with [hmac.new(key, msg, hashlib.sha256).digest()].  The
    construction is that of Python's [hmac] module: a key longer than one
    block of the digest is hashed first, the key is then filled with NUL
    bytes to a whole block, and the digest is applied twice, over the
    block combined with the inner and with the outer pad.  The digest
    itself stays a parameter. *)

(** The block of SHA-256, in bytes. *)
Definition block_size : nat := 64.

Definition NUL : ascii := Ascii.zero.

(** [n] NUL bytes. *)
Fixpoint zeros (n : nat) : string :=
  match n with
  | O => EmptyString
  | S k => String NUL (zeros k)
  end.

Definition xor_ascii (a b : ascii) : ascii :=
  match a, b with
  | Ascii a0 a1 a2 a3 a4 a5 a6 a7, Ascii b0 b1 b2 b3 b4 b5 b6 b7 =>
      Ascii (xorb a0 b0) (xorb a1 b1) (xorb a2 b2) (xorb a3 b3)
            (xorb a4 b4) (xorb a5 b5) (xorb a6 b6) (xorb a7 b7)
  end.

(** [s.translate(trans)] for the table that combines each byte with
    [pad] *)
Fixpoint xor_with (pad : ascii) (s : string) : string :=
  match s with
  | EmptyString => EmptyString
  | String c rest => String (xor_ascii pad c) (xor_with pad rest)
  end.

(** The bytes 0x36 and 0x5C. *)
Definition ipad : ascii := Ascii.ascii_of_nat 54.
Definition opad : ascii := Ascii.ascii_of_nat 92.

(** The key as both digests receive it: hashed when longer than a block,
    then filled with NUL bytes ([key.ljust(block_size, ...)]). *)
Definition block_key (digest : string -> string) (key : string) : string :=
  let key := if Nat.ltb block_size (String.length key) then digest key
             else key in
  key ++ zeros (block_size - String.length key).

(** What the outer digest is applied to. *)
Definition hmac_outer (digest : string -> string) (key msg : string)
    : string :=
  xor_with opad (block_key digest key)
  ++ digest (xor_with ipad (block_key digest key) ++ msg).

Definition hmac (digest : string -> string) (key msg : string) : string :=
  digest (hmac_outer digest key msg).

(** The library interface with the HS256 signature computed as above,
    from a digest and from the text PyJWT signs (the encoded header and
    claim set); the other functions are those of [base]. *)
Definition hmac_libs (base : Libs) (digest : string -> string)
    (signing_input : string -> claims -> string) : Libs :=
  {| md5_hexdigest := md5_hexdigest (Libs := base);
     sha256_hexdigest := sha256_hexdigest (Libs := base);
     hs256 := fun key alg payload => hmac digest key (signing_input alg payload);
     str_datetime := str_datetime (Libs := base);
     compact := compact (Libs := base) |}.

(** ** The SQLite store *)

(** A row of table [users]: [user_id TEXT PRIMARY KEY],
    [email TEXT UNIQUE NOT NULL]. *)
Record user_row : Type := mk_user_row {
  u_user_id : string;
  u_email : string;
  u_password_hash : string;
  u_full_name : option string;
  u_created_at : Z
}.

(** A row of table [schedules]: [schedule_id TEXT PRIMARY KEY]; column
    [match_ids] is TEXT and holds a JSON document. *)
Record schedule_row : Type := mk_schedule_row {
  s_schedule_id : string;
  s_user_id : string;
  s_schedule_name : string;
  s_match_ids : string;
  s_created_at : Z;
  s_updated_at : Z
}.

(** A row of table [push_tokens]: [user_id TEXT PRIMARY KEY]. *)
Record push_row : Type := mk_push_row {
  p_user_id : string;
  p_device_token : string;
  p_updated_at : Z
}.

(** The three tables, each in rowid order.  The FOREIGN KEY clauses of the
    schema are not enforced: the connection never issues
    [PRAGMA foreign_keys = ON]. *)
Record db : Type := mk_db {
  users : list user_row;
  schedules : list schedule_row;
  push_tokens : list push_row
}.

(** The store right after [init_database()] on a fresh file. *)
Definition empty_db : db :=
  {| users := []; schedules := []; push_tokens := [] |}.

(** [INSERT INTO users ...]: refused when the primary key or the unique
    email is already taken. *)
Definition insert_user (r : user_row) (conn : db) : option db :=
  if existsb (fun x => String.eqb (u_user_id x) (u_user_id r)
                       || String.eqb (u_email x) (u_email r)) (users conn)
  then None
  else Some {| users := users conn ++ [r];
               schedules := schedules conn;
               push_tokens := push_tokens conn |}.

(** [INSERT INTO schedules ...]: refused when the primary key is taken. *)
Definition insert_schedule (r : schedule_row) (conn : db) : option db :=
  if existsb (fun x => String.eqb (s_schedule_id x) (s_schedule_id r))
             (schedules conn)
  then None
  else Some {| users := users conn;
               schedules := schedules conn ++ [r];
               push_tokens := push_tokens conn |}.

(** [DELETE FROM schedules WHERE schedule_id = ? AND user_id = ?]: the
    store afterwards and [cursor.rowcount]. *)
Definition delete_schedule_rows (schedule_id user_id : string) (conn : db)
    : db * nat :=
  let hit x := String.eqb (s_schedule_id x) schedule_id
               && String.eqb (s_user_id x) user_id in
  ({| users := users conn;
      schedules := filter (fun x => negb (hit x)) (schedules conn);
      push_tokens := push_tokens conn |},
   List.length (filter hit (schedules conn))).

(** [INSERT OR REPLACE INTO push_tokens ...]: the rows in conflict on the
    primary key are removed, then the new row is added. *)
Definition insert_or_replace_push (r : push_row) (conn : db) : db :=
  {| users := users conn;
     schedules := schedules conn;
     push_tokens :=
       filter (fun x => negb (String.eqb (p_user_id x) (p_user_id r)))
              (push_tokens conn) ++ [r] |}.

(** The constraints of the schema: what SQLite guarantees of any file with
    these tables. *)
Record db_ok (conn : db) : Prop := mk_db_ok {
  users_pk : NoDup (map u_user_id (users conn));
  users_email_unique : NoDup (map u_email (users conn));
  schedules_pk : NoDup (map s_schedule_id (schedules conn));
  push_tokens_pk : NoDup (map p_user_id (push_tokens conn))
}.

(** ** JSON text of a list of integers *)

(** [str(n)] for a Python int. *)
Definition str_int (z : Z) : string := NilZero.string_of_int (Z.to_int z).

(** [sep.join(parts)] *)
Fixpoint join (sep : string) (parts : list string) : string :=
  match parts with
  | [] => ""
  | [p] => p
  | p :: rest => p ++ sep ++ join sep rest
  end.

(** [json.dumps(match_ids)] for [match_ids : List[int]]. *)
Definition json_dumps (match_ids : list Z) : string :=
  "[" ++ join ", " (map str_int match_ids) ++ "]".

(** The pieces of [s] between occurrences of [c]. *)
Fixpoint split_on (c : ascii) (s : string) : list string :=
  match s with
  | EmptyString => [EmptyString]
  | String a rest =>
      if Ascii.eqb a c then EmptyString :: split_on c rest
      else match split_on c rest with
           | [] => [String a EmptyString]
           | p :: ps => String a p :: ps
           end
  end.

(** Leading blanks removed. *)
Fixpoint lstrip (s : string) : string :=
  match s with
  | String a rest => if Ascii.eqb a " " then lstrip rest else s
  | EmptyString => EmptyString
  end.

(** [s] without its last character, when that character is [c]. *)
Fixpoint drop_last (c : ascii) (s : string) : option string :=
  match s with
  | EmptyString => None
  | String a EmptyString => if Ascii.eqb a c then Some EmptyString else None
  | String a rest => option_map (String a) (drop_last c rest)
  end.

(** Every element through [f], or nothing when one fails. *)
Fixpoint traverse {A B : Type} (f : A -> option B) (l : list A)
    : option (list B) :=
  match l with
  | [] => Some []
  | a :: rest =>
      match f a, traverse f rest with
      | Some b, Some bs => Some (b :: bs)
      | _, _ => None
      end
  end.

(** One array element: an optional blank, then a decimal integer. *)
Definition parse_int (s : string) : option Z :=
  option_map Z.of_int (NilZero.int_of_string (lstrip s)).

(** [json.loads(text)] on the documents column [match_ids] can hold, arrays
    of integers; [None] stands for any other document or a decoding
    error. *)
Definition json_loads (text : string) : option (list Z) :=
  match text with
  | String "[" rest =>
      match drop_last "]" rest with
      | Some EmptyString => Some []
      | Some body => traverse parse_int (split_on "," body)
      | None => None
      end
  | _ => None
  end.

(** ** Request and response models *)

(** [class UserRegister(BaseModel)] *)
Module UserRegister.
Record t : Type := mk {
  email : string;
  password : string;
  full_name : option string
}.
End UserRegister.

(** [class UserLogin(BaseModel)] *)
Module UserLogin.
Record t : Type := mk {
  email : string;
  password : string
}.
End UserLogin.

(** [class Token(BaseModel)], the [response_model] of both authentication
    endpoints. *)
Module Token.
Record t : Type := mk {
  access_token : token;
  token_type : string;
  user_id : string
}.
End Token.

(** [class Schedule(BaseModel)] *)
Module Schedule.
Record t : Type := mk {
  schedule_id : option string;
  schedule_name : string;
  match_ids : list Z
}.
End Schedule.

(** [class PushToken(BaseModel)] *)
Module PushToken.
Record t : Type := mk {
  device_token : string
}.
End PushToken.

(** The dict returned by [create_schedule]. *)
Module Created.
Record t : Type := mk {
  schedule_id : string;
  schedule_name : string;
  match_ids : list Z
}.
End Created.

(** One element of ["schedules"] in the dict returned by
    [get_user_schedules]. *)
Module Entry.
Record t : Type := mk {
  schedule_id : string;
  schedule_name : string;
  match_ids : list Z;
  created_at : Z;
  updated_at : Z
}.
End Entry.

(** The dict returned by [get_user_schedules]. *)
Module Listing.
Record t : Type := mk {
  user_id : string;
  schedules : list Entry.t
}.
End Listing.

(** The dict [{"message": ...}] returned by the last two handlers. *)
Module Message.
Record t : Type := mk {
  message : string
}.
End Message.

(** ** The handlers *)

(** Sequencing of a step that does not touch the store with the rest of a
    handler: an exception ends the handler with the store as it is. *)
Definition and_then {A B : Type} (conn : db) (o : outcome A)
    (k : A -> db * outcome B) : db * outcome B :=
  match o with
  | Return a => k a
  | HTTPException c d => (conn, HTTPException c d)
  | Uncaught e => (conn, Uncaught e)
  end.

(** The loop of [get_user_schedules] over the fetched rows. *)
Fixpoint entries_of (rows : list schedule_row) : outcome (list Entry.t) :=
  match rows with
  | [] => Return []
  | row :: rest =>
      match json_loads (s_match_ids row) with
      | None => Uncaught JSONDecodeError
      | Some ids =>
          match entries_of rest with
          | Return es =>
              Return ({| Entry.schedule_id := s_schedule_id row;
                         Entry.schedule_name := s_schedule_name row;
                         Entry.match_ids := ids;
                         Entry.created_at := s_created_at row;
                         Entry.updated_at := s_updated_at row |} :: es)
          | other => other
          end
      end
  end.

Section Handlers.
Context {L : Libs}.

(** [hash_password(password)] *)
Definition hash_password (password : string) : string :=
  sha256_hexdigest password.

(** [POST /api/auth/register] *)
Definition register (user : UserRegister.t) (now : Z) (conn : db)
    : db * outcome Token.t :=
  if existsb (fun r => String.eqb (u_email r) (UserRegister.email user))
             (users conn)
  then (conn, HTTPException 400 "Email already registered")
  else
    let user_id := md5_hexdigest (UserRegister.email user) in
    let password_hash := hash_password (UserRegister.password user) in
    match insert_user {| u_user_id := user_id;
                         u_email := UserRegister.email user;
                         u_password_hash := password_hash;
                         u_full_name := UserRegister.full_name user;
                         u_created_at := now |} conn with
    | None => (conn, Uncaught IntegrityError)
    | Some conn' =>
        let access_token := create_access_token user_id now in
        (conn', Return {| Token.access_token := access_token;
                          Token.token_type := "bearer";
                          Token.user_id := user_id |})
    end.

(** [POST /api/auth/login] *)
Definition login (user : UserLogin.t) (now : Z) (conn : db)
    : db * outcome Token.t :=
  let password_hash := hash_password (UserLogin.password user) in
  match find (fun r => String.eqb (u_email r) (UserLogin.email user)
                       && String.eqb (u_password_hash r) password_hash)
             (users conn) with
  | None => (conn, HTTPException 401 "Invalid email or password")
  | Some result =>
      let user_id := u_user_id result in
      let access_token := create_access_token user_id now in
      (conn, Return {| Token.access_token := access_token;
                       Token.token_type := "bearer";
                       Token.user_id := user_id |})
  end.

(** [POST /api/schedules] *)
Definition create_schedule (schedule : Schedule.t) (t : token) (now : Z)
    (conn : db) : db * outcome Created.t :=
  and_then conn (verify_token t now) (fun user_id =>
    let schedule_id := md5_hexdigest (user_id ++ str_datetime now) in
    let match_ids_json := json_dumps (Schedule.match_ids schedule) in
    match insert_schedule
            {| s_schedule_id := schedule_id;
               s_user_id := user_id;
               s_schedule_name := Schedule.schedule_name schedule;
               s_match_ids := match_ids_json;
               s_created_at := now;
               s_updated_at := now |} conn with
    | None => (conn, Uncaught IntegrityError)
    | Some conn' =>
        (conn', Return
           {| Created.schedule_id := schedule_id;
              Created.schedule_name := Schedule.schedule_name schedule;
              Created.match_ids := Schedule.match_ids schedule |})
    end).

(** [GET /api/schedules/{user_id}]: the token is verified and its subject
    discarded; the rows are selected by the path parameter. *)
Definition get_user_schedules (user_id : string) (t : token) (now : Z)
    (conn : db) : db * outcome Listing.t :=
  and_then conn (verify_token t now) (fun _ =>
    let rows := filter (fun r => String.eqb (s_user_id r) user_id)
                       (schedules conn) in
    match entries_of rows with
    | Return es => (conn, Return {| Listing.user_id := user_id;
                                    Listing.schedules := es |})
    | HTTPException c d => (conn, HTTPException c d)
    | Uncaught e => (conn, Uncaught e)
    end).

(** [DELETE /api/schedules/{schedule_id}]: the statement is committed
    before [rowcount] is looked at. *)
Definition delete_schedule (schedule_id : string) (t : token) (now : Z)
    (conn : db) : db * outcome Message.t :=
  and_then conn (verify_token t now) (fun user_id =>
    let (conn', rowcount) := delete_schedule_rows schedule_id user_id conn in
    if Nat.eqb rowcount 0
    then (conn', HTTPException 404 "Schedule not found")
    else (conn', Return
            {| Message.message := "Schedule deleted successfully" |})).

(** [POST /api/notifications/register] *)
Definition register_push_token (push_token : PushToken.t) (t : token)
    (now : Z) (conn : db) : db * outcome Message.t :=
  and_then conn (verify_token t now) (fun user_id =>
    (insert_or_replace_push
       {| p_user_id := user_id;
          p_device_token := PushToken.device_token push_token;
          p_updated_at := now |} conn,
     Return {| Message.message := "Push token registered successfully" |})).

End Handlers.

(** ** Sequences of requests *)

(** The requests that reach a handler touching the store, each with the
    clock reading at which it is served. *)
Inductive request : Type :=
| Register (user : UserRegister.t)
| Login (user : UserLogin.t)
| CreateSchedule (schedule : Schedule.t) (t : token)
| GetUserSchedules (user_id : string) (t : token)
| DeleteSchedule (schedule_id : string) (t : token)
| RegisterPushToken (push_token : PushToken.t) (t : token).

Section Server.
Context {L : Libs}.

(** The store a request leaves behind. *)
Definition handle (r : request) (now : Z) (conn : db) : db :=
  match r with
  | Register user => fst (register user now conn)
  | Login user => fst (login user now conn)
  | CreateSchedule schedule t => fst (create_schedule schedule t now conn)
  | GetUserSchedules user_id t => fst (get_user_schedules user_id t now conn)
  | DeleteSchedule schedule_id t =>
      fst (delete_schedule schedule_id t now conn)
  | RegisterPushToken push_token t =>
      fst (register_push_token push_token t now conn)
  end.

(** The store after a sequence of requests, served one after the other. *)
Fixpoint run (rs : list (request * Z)) (conn : db) : db :=
  match rs with
  | [] => conn
  | (r, now) :: rest => run rest (handle r now conn)
  end.

End Server.

(** Every [match_ids] text of the store was written by [json.dumps]. *)
Definition match_ids_ok (conn : db) : Prop :=
  Forall (fun r => exists ids, s_match_ids r = json_dumps ids)
         (schedules conn).

(** The rows of [users] with a given email, of [push_tokens] with a given
    user, and of [schedules] with a given owner. *)
Definition users_with_email (e : string) (conn : db) : list user_row :=
  filter (fun r => String.eqb (u_email r) e) (users conn).

Definition push_rows_of (user_id : string) (conn : db) : list push_row :=
  filter (fun r => String.eqb (p_user_id r) user_id) (push_tokens conn).

Definition schedules_of (user_id : string) (conn : db) : list schedule_row :=
  filter (fun r => String.eqb (s_user_id r) user_id) (schedules conn).

(** ** The routing table *)

Inductive http_method : Type := GET | POST | DELETE.

Definition http_method_eqb (a b : http_method) : bool :=
  match a, b with
  | GET, GET | POST, POST | DELETE, DELETE => true
  | _, _ => false
  end.

(** The functions decorated with [@app.get], [@app.post] or
    [@app.delete]. *)
Inductive endpoint : Type :=
| ep_root
| ep_health_check
| ep_register
| ep_login
| ep_get_matches
| ep_get_match
| ep_get_matches_by_stadium
| ep_get_stadiums
| ep_get_stadium
| ep_create_schedule
| ep_get_user_schedules
| ep_delete_schedule
| ep_register_push_token
| ep_get_crowd_data
| ep_get_weather.

(** The decorators of [server.py], in the order of the file. *)
Definition routes : list (http_method * string * endpoint) :=
  [ (GET, "/", ep_root);
    (GET, "/health", ep_health_check);
    (POST, "/api/auth/register", ep_register);
    (POST, "/api/auth/login", ep_login);
    (GET, "/api/matches", ep_get_matches);
    (GET, "/api/matches/{match_id}", ep_get_match);
    (GET, "/api/matches/stadium/{stadium_id}", ep_get_matches_by_stadium);
    (GET, "/api/stadiums", ep_get_stadiums);
    (GET, "/api/stadiums/{stadium_id}", ep_get_stadium);
    (POST, "/api/schedules", ep_create_schedule);
    (GET, "/api/schedules/{user_id}", ep_get_user_schedules);
    (DELETE, "/api/schedules/{schedule_id}", ep_delete_schedule);
    (POST, "/api/notifications/register", ep_register_push_token);
    (GET, "/api/crowds/{stadium_id}", ep_get_crowd_data);
    (GET, "/api/weather/{stadium_id}", ep_get_weather) ].

(** A segment of a route template against a segment of a request path: a
    [{name}] segment takes any non-empty text, any other segment only
    itself. *)
Definition segment_matches (template actual : string) : bool :=
  match template with
  | String "{" _ => negb (String.eqb actual "")
  | _ => String.eqb template actual
  end.

Fixpoint segments_match (template actual : list string) : bool :=
  match template, actual with
  | [], [] => true
  | t :: ts, a :: acts => segment_matches t a && segments_match ts acts
  | _, _ => false
  end.

Definition path_matches (template path : string) : bool :=
  segments_match (split_on "/" template) (split_on "/" path).

(** The handler a request is routed to: the first route of the table whose
    method and path match, if any. *)
Definition dispatch (m : http_method) (path : string) : option endpoint :=
  match find (fun r => http_method_eqb (fst (fst r)) m
                       && path_matches (snd (fst r)) path) routes with
  | Some r => Some (snd r)
  | None => None
  end.

(** The JSON object a [Token] response is serialised to: the fields of the
    response model, in declaration order. *)
Definition Token_json {L : Libs} (t : Token.t) : list (string * string) :=
  [ ("access_token", compact (Token.access_token t));
    ("token_type", Token.token_type t);
    ("user_id", Token.user_id t) ].

(** [UserRegister] validation of a JSON body whose members are strings:
    [email] and [password] are required, [full_name] is optional, other
    members are ignored. *)
Fixpoint member (name : string) (body : list (string * string))
    : option string :=
  match body with
  | [] => None
  | (k, v) :: rest => if String.eqb k name then Some v else member name rest
  end.

Definition UserRegister_of_body (body : list (string * string))
    : option UserRegister.t :=
  match member "email" body, member "password" body with
  | Some e, Some p =>
      Some {| UserRegister.email := e;
              UserRegister.password := p;
              UserRegister.full_name := member "full_name" body |}
  | _, _ => None
  end.

(** ** The provider services *)

Module Providers.

Local Open Scope Q_scope.

(** A decoded JSON document.  [JNum q] is the number of value [q] as
    [json.loads] makes it: the Python [int] [q] when [q] is an integer,
    and otherwise the [float] nearest to [q] (see [decode] below).  A
    float of integral value, an infinity or a NaN is no [JNum]; the
    arithmetic of the services is defined on Python numbers ([pynum])
    first for that reason, and on documents through [operand]. *)
#[warnings="-register-all"]
Inductive json : Type :=
| JNull
| JBool (b : bool)
| JNum (q : Q)
| JStr (s : string)
| JArr (items : list json)
| JObj (members : list (string * json)).

(** The exception classes the two services can meet, all of them
    subclasses of [Exception]. *)
Inductive exn : Type :=
| ConnectionError
| Timeout
| HTTPError
| JSONDecodeError
| KeyError
| IndexError
| TypeError
| AttributeError
| ValueError
| ZeroDivisionError
| OverflowError.

(** The result of evaluating a Python expression or block. *)
Inductive py (A : Type) : Type :=
| Ok (a : A)
| Raise (e : exn).

Arguments Ok {A} a.
Arguments Raise {A} e.

Definition bind {A B : Type} (m : py A) (k : A -> py B) : py B :=
  match m with
  | Ok a => k a
  | Raise e => Raise e
  end.

Notation "x <- m ;; k" := (bind m (fun x => k))
  (at level 61, m at next level, right associativity).

(** [try: body  except Exception: handler] *)
Definition try_except {A : Type} (body : py A) (handler : exn -> py A)
    : py A :=
  match body with
  | Ok a => Ok a
  | Raise e => handler e
  end.

(** What [requests.get(url, params=..., timeout=5)] comes back with: an
    exception, or a response with a status and, when its body decodes,
    a JSON document. *)
Inductive reply : Type :=
| NoReply (e : exn)
| Reply (status_code : Z) (body : option json).

(** [response.raise_for_status()] *)
Definition raise_for_status (status_code : Z) : py unit :=
  if ((400 <=? status_code) && (status_code <? 600))%Z
  then Raise HTTPError else Ok tt.

(** [response.json()] *)
Definition response_json (body : option json) : py json :=
  match body with
  | Some data => Ok data
  | None => Raise JSONDecodeError
  end.

(** *** Python operators on decoded JSON *)

Fixpoint lookup (key : string) (members : list (string * json))
    : option json :=
  match members with
  | [] => None
  | (k, v) :: rest => if String.eqb k key then Some v else lookup key rest
  end.

(** [v[key]] for a string key. *)
Definition getitem (v : json) (key : string) : py json :=
  match v with
  | JObj members =>
      match lookup key members with
      | Some x => Ok x
      | None => Raise KeyError
      end
  | _ => Raise TypeError
  end.

(** [v[0]] *)
Definition getitem0 (v : json) : py json :=
  match v with
  | JArr [] => Raise IndexError
  | JArr (x :: _) => Ok x
  | JObj _ => Raise KeyError
  | JStr EmptyString => Raise IndexError
  | JStr (String a _) => Ok (JStr (String a EmptyString))
  | _ => Raise TypeError
  end.

(** [v.get(key, default)] *)
Definition dict_get (v : json) (key : string) (default : json) : py json :=
  match v with
  | JObj members =>
      match lookup key members with
      | Some x => Ok x
      | None => Ok default
      end
  | _ => Raise AttributeError
  end.

(** [bool(v)] *)
Definition truthy (v : json) : bool :=
  match v with
  | JNull => false
  | JBool b => b
  | JNum q => negb (Qeq_bool q 0)
  | JStr s => negb (String.eqb s "")
  | JArr items => match items with [] => false | _ => true end
  | JObj members => match members with [] => false | _ => true end
  end.

(** [v == "..."] *)
Definition eq_str (v : json) (s : string) : bool :=
  match v with
  | JStr x => String.eqb x s
  | _ => false
  end.

(** The numeric value of an operand of arithmetic: [bool] is a subclass
    of [int]. *)
Definition number (v : json) : py Q :=
  match v with
  | JNum q => Ok q
  | JBool true => Ok 1
  | JBool false => Ok 0
  | _ => Raise TypeError
  end.

Definition Qltb (a b : Q) : bool := negb (Qle_bool b a).

(** *** Python numbers *)

(** A [float] is a binary64 number. *)
Definition prec : Z := 53.
Definition emax : Z := 1024.

(** A Python number: an [int], of any size, or a [float], which may be an
    infinity or a NaN. *)
Inductive pynum : Type :=
| PyInt (z : Z)
| PyFloat (f : spec_float).

(** The float nearest to the quotient of two integers, the second not
    zero; an infinity when the quotient is beyond the largest float. *)
Definition quotient (m n : Z) : spec_float :=
  match m, n with
  | Z0, _ => S754_zero (n <? 0)%Z
  | _, Z0 => S754_nan
  | _, _ =>
      SFdiv prec emax
        (S754_finite (m <? 0)%Z (Z.to_pos (Z.abs m)) 0)
        (S754_finite (n <? 0)%Z (Z.to_pos (Z.abs n)) 0)
  end.

(** The float nearest to an integer. *)
Definition float_of_Z (z : Z) : spec_float :=
  binary_normalize prec emax z 0 false.

(** The literals [1.0], [1.1], [1.3] and [100.0]. *)
Definition float_1_0 : spec_float :=
  S754_finite false 4503599627370496 (-52).
Definition mantissa_1_1 : BinNums.positive := 4953959590107546.
Definition mantissa_1_3 : BinNums.positive := 5854679515581645.
Definition float_1_1 : spec_float := S754_finite false mantissa_1_1 (-52).
Definition float_1_3 : spec_float := S754_finite false mantissa_1_3 (-52).
Definition float_100 : spec_float :=
  S754_finite false 7036874417766400 (-46).

Definition integral (q : Q) : bool := (Qnum q mod Zpos (Qden q) =? 0)%Z.

(** What [json.loads] makes of a number of value [q]. *)
Definition decode (q : Q) : pynum :=
  if integral q then PyInt (Qnum q / Zpos (Qden q))
  else PyFloat (quotient (Qnum q) (Zpos (Qden q))).

(** A value as an operand of arithmetic or of a comparison with a number:
    [bool] is a subclass of [int], the other types raise. *)
Definition operand (v : json) : py pynum :=
  match v with
  | JNum q => Ok (decode q)
  | JBool true => Ok (PyInt 1)
  | JBool false => Ok (PyInt 0)
  | _ => Raise TypeError
  end.

Definition is_infinite (f : spec_float) : bool :=
  match f with
  | S754_infinity _ => true
  | _ => false
  end.

(** [float(x)], as arithmetic converts an operand: an [int] beyond the
    largest float raises. *)
Definition to_float (x : pynum) : py spec_float :=
  match x with
  | PyInt z =>
      if is_infinite (float_of_Z z) then Raise OverflowError
      else Ok (float_of_Z z)
  | PyFloat f => Ok f
  end.

(** [x == 0] *)
Definition is_zero (x : pynum) : bool :=
  match x with
  | PyInt z => (z =? 0)%Z
  | PyFloat (S754_zero _) => true
  | PyFloat _ => false
  end.

(** [x > 0] *)
Definition is_positive (x : pynum) : bool :=
  match x with
  | PyInt z => (0 <? z)%Z
  | PyFloat f => SFltb (S754_zero false) f
  end.

(** [x / y].  Two [int]s give the float nearest to their quotient, and
    raise when it is beyond the largest float; otherwise both operands
    are converted and divided as floats. *)
Definition truediv (x y : pynum) : py spec_float :=
  match x, y with
  | PyInt m, PyInt n =>
      if (n =? 0)%Z then Raise ZeroDivisionError
      else if is_infinite (quotient m n) then Raise OverflowError
      else Ok (quotient m n)
  | _, _ =>
      a <- to_float x ;;
      b <- to_float y ;;
      if is_zero y then Raise ZeroDivisionError
      else Ok (SFdiv prec emax a b)
  end.

(** [int(x)]: truncation towards zero. *)
Definition int_of_float (f : spec_float) : py Z :=
  match f with
  | S754_zero _ => Ok 0%Z
  | S754_finite s m e =>
      let n := match e with
               | Zneg k => Z.shiftr (Zpos m) (Zpos k)
               | _ => Z.shiftl (Zpos m) e
               end in
      Ok (if s then (- n)%Z else n)
  | S754_infinity _ => Raise OverflowError
  | S754_nan => Raise ValueError
  end.

Definition int_of (x : pynum) : py Z :=
  match x with
  | PyInt z => Ok z
  | PyFloat f => int_of_float f
  end.

(** [x * 100] *)
Definition times100 (x : pynum) : py pynum :=
  match x with
  | PyInt z => Ok (PyInt (z * 100))
  | PyFloat f => Ok (PyFloat (SFmul prec emax f float_100))
  end.

(** [a > 0] *)
Definition gt0 (a : json) : py bool :=
  x <- operand a ;; Ok (is_positive x).

(** [round(x)]: to the nearest integer, ties to the even one. *)
Definition round (x : Q) : Z :=
  let f := Qfloor x in
  let r := x - inject_Z f in
  if Qltb r (1 # 2) then f
  else if Qltb (1 # 2) r then (f + 1)%Z
  else if Z.even f then f else (f + 1)%Z.

(** [round(x, 1)] *)
Definition round1 (x : Q) : Q := inject_Z (round (x * 10)) / 10.

(** *** The traffic service *)

Record TrafficService : Type := mk_TrafficService {
  t_api_key : string;
  t_base_url : string
}.

(** [TrafficService.__init__], from the process environment. *)
Definition TrafficService_init (getenv : string -> option string)
    : TrafficService :=
  {| t_api_key := match getenv "GOOGLE_MAPS_API_KEY" with
                  | Some k => k
                  | None => ""
                  end;
     t_base_url :=
       "https://maps.googleapis.com/maps/api/distancematrix/json" |}.

(** Lines 65 to 71 of [get_travel_time]:
    [duration_in_traffic / duration if duration > 0 else 1.0], on two
    numbers first, then on the values found in the document. *)
Definition ratio (duration_in_traffic duration : pynum) : py spec_float :=
  if is_positive duration then truediv duration_in_traffic duration
  else Ok float_1_0.

Definition traffic_ratio (duration_in_traffic duration : json)
    : py spec_float :=
  positive <- gt0 duration ;;
  if (positive : bool) then
    x <- operand duration_in_traffic ;;
    y <- operand duration ;;
    truediv x y
  else Ok float_1_0.

Definition traffic_level (traffic_ratio : spec_float) : string :=
  if SFltb traffic_ratio float_1_1 then "light"
  else if SFltb traffic_ratio float_1_3 then "moderate"
  else "heavy".

Record WeatherService : Type := mk_WeatherService {
  w_api_key : string;
  w_base_url : string
}.

Section Services.
(** The network, the clock and the formatting of a float. *)
Variable requests_get : string -> list (string * json) -> reply.
Variable utcnow_isoformat : string.
Variable format_float : Q -> string.
(** [int(s)] of a string. *)
Variable int_of_str : string -> option Z.

(** [TrafficService._mock_traffic_data] *)
Definition _mock_traffic_data : json :=
  JObj [ ("distance_meters", JNum 15000);
         ("distance_miles", JNum (93 # 10));
         ("duration_seconds", JNum 1200);
         ("duration_minutes", JNum 20);
         ("duration_in_traffic_seconds", JNum 1500);
         ("duration_in_traffic_minutes", JNum 25);
         ("traffic_level", JStr "moderate");
         ("traffic_delay_minutes", JNum 5);
         ("mode", JStr "driving");
         ("updated_at", JStr utcnow_isoformat) ].

(** The [try] block of [get_travel_time].  The ratio and the level are
    computed as Python computes them.  The four fields made with [round]
    are given from the exact values of their arguments: that the code
    rounds a float there, and leaves the block with an [OverflowError]
    when a conversion to float fails, is not modelled, and no statement
    below depends on these fields or, on a well-formed reply, on the
    choice between this payload and the mock one. *)
Definition travel_time_body (self : TrafficService)
    (origin_lat origin_lon dest_lat dest_lon : Q) (mode : string)
    : py json :=
  let params :=
    [ ("origins",
       JStr (format_float origin_lat ++ "," ++ format_float origin_lon));
      ("destinations",
       JStr (format_float dest_lat ++ "," ++ format_float dest_lon));
      ("mode", JStr mode);
      ("departure_time", JStr "now");
      ("traffic_model", JStr "best_guess");
      ("key", JStr (t_api_key self)) ] in
  match requests_get (t_base_url self) params with
  | NoReply e => Raise e
  | Reply status_code body =>
      _ <- raise_for_status status_code ;;
      data <- response_json body ;;
      status <- getitem data "status" ;;
      go <- (if eq_str status "OK"
             then rows <- getitem data "rows" ;; Ok (truthy rows)
             else Ok false) ;;
      if (go : bool) then
        rows <- getitem data "rows" ;;
        row <- getitem0 rows ;;
        elements <- getitem row "elements" ;;
        element <- getitem0 elements ;;
        element_status <- getitem element "status" ;;
        if eq_str element_status "OK" then
          d <- getitem element "duration" ;;
          duration <- getitem d "value" ;;
          dt <- dict_get element "duration_in_traffic" (JObj []) ;;
          duration_in_traffic <- dict_get dt "value" duration ;;
          ds <- getitem element "distance" ;;
          distance <- getitem ds "value" ;;
          ratio <- traffic_ratio duration_in_traffic duration ;;
          let level := traffic_level ratio in
          dist <- number distance ;;
          dur <- number duration ;;
          dur_traffic <- number duration_in_traffic ;;
          Ok (JObj
            [ ("distance_meters", distance);
              ("distance_miles",
               JNum (round1 (dist * (621371 # 1000000000))));
              ("duration_seconds", duration);
              ("duration_minutes", JNum (inject_Z (round (dur / 60))));
              ("duration_in_traffic_seconds", duration_in_traffic);
              ("duration_in_traffic_minutes",
               JNum (inject_Z (round (dur_traffic / 60))));
              ("traffic_level", JStr level);
              ("traffic_delay_minutes",
               JNum (inject_Z (round ((dur_traffic - dur) / 60))));
              ("mode", JStr mode);
              ("updated_at", JStr utcnow_isoformat) ])
        else Ok _mock_traffic_data
      else Ok _mock_traffic_data
  end.

(** [TrafficService.get_travel_time] *)
Definition get_travel_time (self : TrafficService)
    (origin_lat origin_lon dest_lat dest_lon : Q) (mode : string)
    : py json :=
  if String.eqb (t_api_key self) "" then Ok _mock_traffic_data
  else
    try_except
      (travel_time_body self origin_lat origin_lon dest_lat dest_lon mode)
      (fun _ => Ok _mock_traffic_data).

(** *** The weather service *)

(** [WeatherService.__init__], from the process environment. *)
Definition WeatherService_init (getenv : string -> option string)
    : WeatherService :=
  {| w_api_key := match getenv "OPENWEATHER_API_KEY" with
                  | Some k => k
                  | None => ""
                  end;
     w_base_url := "https://api.openweathermap.org/data/2.5" |}.

(** [WeatherService._mock_weather_data] *)
Definition _mock_weather_data : json :=
  JObj [ ("temperature", JNum 72);
         ("temperature_unit", JStr "F");
         ("condition", JStr "Partly Cloudy");
         ("description", JStr "partly cloudy");
         ("precipitation_chance", JNum 20);
         ("humidity", JNum 65);
         ("wind_speed", JNum 8);
         ("feels_like", JNum 70);
         ("updated_at", JStr utcnow_isoformat) ].

(** [int(v)] *)
Definition int (v : json) : py Z :=
  match v with
  | JNum q => int_of (decode q)
  | JBool true => Ok 1%Z
  | JBool false => Ok 0%Z
  | JStr s => match int_of_str s with
              | Some z => Ok z
              | None => Raise ValueError
              end
  | _ => Raise TypeError
  end.

(** The [try] block of [get_current_weather]. *)
Definition current_weather_body (self : WeatherService) (lat lon : Q)
    : py json :=
  let url := w_base_url self ++ "/weather" in
  let params :=
    [ ("lat", JNum lat);
      ("lon", JNum lon);
      ("appid", JStr (w_api_key self));
      ("units", JStr "imperial") ] in
  match requests_get url params with
  | NoReply e => Raise e
  | Reply status_code body =>
      _ <- raise_for_status status_code ;;
      data <- response_json body ;;
      main <- getitem data "main" ;;
      temp <- getitem main "temp" ;;
      temperature <- int temp ;;
      weather <- getitem data "weather" ;;
      weather0 <- getitem0 weather ;;
      condition <- getitem weather0 "main" ;;
      description <- getitem weather0 "description" ;;
      humidity <- getitem main "humidity" ;;
      wind <- getitem data "wind" ;;
      speed <- getitem wind "speed" ;;
      wind_speed <- int speed ;;
      feels <- getitem main "feels_like" ;;
      feels_like <- int feels ;;
      Ok (JObj
        [ ("temperature", JNum (inject_Z temperature));
          ("temperature_unit", JStr "F");
          ("condition", condition);
          ("description", description);
          ("precipitation_chance", JNum 0);
          ("humidity", humidity);
          ("wind_speed", JNum (inject_Z wind_speed));
          ("feels_like", JNum (inject_Z feels_like));
          ("updated_at", JStr utcnow_isoformat) ])
  end.

(** [WeatherService.get_current_weather] *)
Definition get_current_weather (self : WeatherService) (lat lon : Q)
    : py json :=
  if String.eqb (w_api_key self) "" then Ok _mock_weather_data
  else
    try_except (current_weather_body self lat lon)
               (fun _ => Ok _mock_weather_data).

(** [int(v * 100)]: a number is multiplied, as an [int] or as a [float],
    and truncated; a string is repeated and read as an integer; a list is
    repeated, and [int] of a list raises, as the product itself does for
    the other types. *)
Definition percent (v : json) : py Z :=
  match v with
  | JNum q => scaled <- times100 (decode q) ;; int_of scaled
  | JBool true => Ok 100%Z
  | JBool false => Ok 0%Z
  | JStr s => match int_of_str (String.concat "" (List.repeat s 100)) with
              | Some z => Ok z
              | None => Raise ValueError
              end
  | _ => Raise TypeError
  end.

(** The [try] block of [get_forecast]; the [date] argument is not used by
    it. *)
Definition forecast_body (self : WeatherService) (lat lon : Q)
    (date : option string) : py json :=
  let url := w_base_url self ++ "/forecast" in
  let params :=
    [ ("lat", JNum lat);
      ("lon", JNum lon);
      ("appid", JStr (w_api_key self));
      ("units", JStr "imperial") ] in
  match requests_get url params with
  | NoReply e => Raise e
  | Reply status_code body =>
      _ <- raise_for_status status_code ;;
      data <- response_json body ;;
      items <- getitem data "list" ;;
      if truthy items then
        forecast <- getitem0 items ;;
        main <- getitem forecast "main" ;;
        temp <- getitem main "temp" ;;
        temperature <- int temp ;;
        weather <- getitem forecast "weather" ;;
        weather0 <- getitem0 weather ;;
        condition <- getitem weather0 "main" ;;
        description <- getitem weather0 "description" ;;
        pop <- dict_get forecast "pop" (JNum 0) ;;
        precipitation_chance <- percent pop ;;
        humidity <- getitem main "humidity" ;;
        wind <- getitem forecast "wind" ;;
        speed <- getitem wind "speed" ;;
        wind_speed <- int speed ;;
        feels <- getitem main "feels_like" ;;
        feels_like <- int feels ;;
        Ok (JObj
          [ ("temperature", JNum (inject_Z temperature));
            ("temperature_unit", JStr "F");
            ("condition", condition);
            ("description", description);
            ("precipitation_chance", JNum (inject_Z precipitation_chance));
            ("humidity", humidity);
            ("wind_speed", JNum (inject_Z wind_speed));
            ("feels_like", JNum (inject_Z feels_like));
            ("updated_at", JStr utcnow_isoformat) ])
      else Ok _mock_weather_data
  end.

(** [WeatherService.get_forecast] *)
Definition get_forecast (self : WeatherService) (lat lon : Q)
    (date : option string) : py json :=
  if String.eqb (w_api_key self) "" then Ok _mock_weather_data
  else
    try_except (forecast_body self lat lon date)
               (fun _ => Ok _mock_weather_data).

(** *** Traffic from several origins *)

(** [origin[key]] for an origin of type [Dict[str, float]]. *)
Fixpoint coordinate (key : string) (origin : list (string * Q)) : py Q :=
  match origin with
  | [] => Raise KeyError
  | (k, v) :: rest => if String.eqb k key then Ok v else coordinate key rest
  end.

(** An origin as the JSON object it is. *)
Definition origin_json (origin : list (string * Q)) : json :=
  JObj (map (fun kv => (fst kv, JNum (snd kv))) origin).

(** [members[key] = v] on the members of a dict: an existing key keeps its
    place, a new one goes last. *)
Fixpoint assign (key : string) (v : json) (members : list (string * json))
    : list (string * json) :=
  match members with
  | [] => [(key, v)]
  | (k, x) :: rest =>
      if String.eqb k key then (k, v) :: rest
      else (k, x) :: assign key v rest
  end.

(** [d[key] = v] *)
Definition setitem (d : json) (key : string) (v : json) : py json :=
  match d with
  | JObj members => Ok (JObj (assign key v members))
  | _ => Raise TypeError
  end.

(** [TrafficService.get_stadium_traffic]: the lookups of ["lat"] and
    ["lon"] are outside any [try]. *)
Fixpoint get_stadium_traffic (self : TrafficService)
    (stadium_lat stadium_lon : Q) (origins : list (list (string * Q)))
    : py (list json) :=
  match origins with
  | [] => Ok []
  | origin :: rest =>
      lat <- coordinate "lat" origin ;;
      lon <- coordinate "lon" origin ;;
      travel_data <- get_travel_time self lat lon stadium_lat stadium_lon
                                     "driving" ;;
      travel_data' <- setitem travel_data "origin" (origin_json origin) ;;
      results <- get_stadium_traffic self stadium_lat stadium_lon rest ;;
      Ok (travel_data' :: results)
  end.

End Services.

(** *** The crowd forecast *)

(** [CrowdForecastService.get_crowd_forecast].  Of [target_time] only the
    hour is read; [None] stands for the default, in which case the hour of
    the clock is taken. *)
Definition get_crowd_forecast (utcnow_hour : Z) (utcnow_isoformat : string)
    (stadium_id : string) (match_id : option Z) (target_time : option Z)
    : json :=
  let hour := match target_time with
              | Some h => h
              | None => utcnow_hour
              end in
  let (crowd_level, crowd_percentage) :=
    if ((8 <=? hour) && (hour <? 12))%Z then ("light", 25%Z)
    else if ((12 <=? hour) && (hour <? 16))%Z then ("moderate", 55%Z)
    else if ((16 <=? hour) && (hour <? 20))%Z then ("heavy", 85%Z)
    else ("light", 15%Z) in
  JObj
    [ ("stadium_id", JStr stadium_id);
      ("match_id", match match_id with
                   | Some m => JNum (inject_Z m)
                   | None => JNull
                   end);
      ("crowd_level", JStr crowd_level);
      ("crowd_percentage", JNum (inject_Z crowd_percentage));
      ("peak_times", JArr [ JStr "2 hours before kickoff";
                            JStr "30 minutes before kickoff" ]);
      ("recommended_arrival", JStr "3 hours before kickoff");
      ("parking_availability",
       JStr (if (60 <? crowd_percentage)%Z then "limited" else "available"));
      ("estimated_wait_times",
       JObj [ ("security",
               JStr (str_int (crowd_percentage / 10) ++ " minutes"));
              ("concessions",
               JStr (str_int (crowd_percentage / 8) ++ " minutes"));
              ("restrooms",
               JStr (str_int (crowd_percentage / 15) ++ " minutes")) ]);
      ("updated_at", JStr utcnow_isoformat) ].

End Providers.

(** ** The catalog endpoints *)

Module Catalog.

Import Providers.

(** What [for m in v] iterates over. *)
Definition iterate (v : json) : py (list json) :=
  match v with
  | JArr items => Ok items
  | JObj members => Ok (map (fun kv => JStr (fst kv)) members)
  | JStr s =>
      Ok (map (fun a => JStr (String a EmptyString)) (list_ascii_of_string s))
  | _ => Raise TypeError
  end.




(** [[m for m in matches if m.get("stadium_id") == stadium_id]] *)
Fixpoint matches_at (stadium_id : string) (matches : list json)
    : py (list json) :=
  match matches with
  | [] => Ok []
  | m :: rest =>
      v <- dict_get m "stadium_id" JNull ;;
      others <- matches_at stadium_id rest ;;
      Ok (if eq_str v stadium_id then m :: others else others)
  end.

(** [GET /api/matches/stadium/{stadium_id}] *)
Definition get_matches_by_stadium (matches_data : json) (stadium_id : string)
    : py json :=
  all <- getitem matches_data "matches" ;;
  matches <- iterate all ;;
  stadium_matches <- matches_at stadium_id matches ;;
  Ok (JObj [ ("stadium_id", JStr stadium_id);
             ("matches", JArr stadium_matches) ]).

(** Whether a value can be the key of a dict, and equality of keys. *)
Definition hashable (v : json) : bool :=
  match v with
  | JArr _ | JObj _ => false
  | _ => true
  end.

Definition key_eq (a b : json) : bool :=
  match a, b with
  | JNull, JNull => true
  | JStr x, JStr y => String.eqb x y
  | (JNum _ | JBool _), (JNum _ | JBool _) =>
      match number a, number b with
      | Ok x, Ok y => Qeq_bool x y
      | _, _ => false
      end
  | _, _ => false
  end.

(** [stadiums[k] = data] *)
Fixpoint store_stadium (k data : json) (stadiums : list (json * json))
    : list (json * json) :=
  match stadiums with
  | [] => [(k, data)]
  | (k', d) :: rest =>
      if key_eq k' k then (k', data) :: rest
      else (k', d) :: store_stadium k data rest
  end.

(** [load_stadiums()] on the documents of the files of the stadium
    directory, in the order [glob] lists them; [None] is a file that is
    not JSON. *)
Fixpoint load_from (files : list (option json)) (stadiums : list (json * json))
    : py (list (json * json)) :=
  match files with
  | [] => Ok stadiums
  | None :: _ => Raise JSONDecodeError
  | Some data :: rest =>
      k <- getitem data "stadium_id" ;;
      if hashable k then load_from rest (store_stadium k data stadiums)
      else Raise TypeError
  end.

Definition load_stadiums (files : list (option json))
    : py (list (json * json)) :=
  load_from files [].

(** [stadiums[stadium_id]] for a string, [None] when it is not in. *)
Fixpoint stadium (stadium_id : string) (stadiums : list (json * json))
    : option json :=
  match stadiums with
  | [] => None
  | (k, d) :: rest =>
      if key_eq k (JStr stadium_id) then Some d else stadium stadium_id rest
  end.

(** [GET /api/stadiums/{stadium_id}] *)
Definition get_stadium (files : list (option json)) (stadium_id : string)
    : py (outcome json) :=
  stadiums <- load_stadiums files ;;
  match stadium stadium_id stadiums with
  | None => Ok (HTTPException 404 "Stadium not found")
  | Some d => Ok (Return d)
  end.

(** [GET /api/weather/{stadium_id}], the mock of [server.py]; [today] is
    [datetime.utcnow().strftime("%Y-%m-%d")]. *)
Definition get_weather (files : list (option json)) (today : string)
    (utcnow_isoformat : string) (stadium_id : string) (date : option string)
    : py (outcome json) :=
  stadiums <- load_stadiums files ;;
  match stadium stadium_id stadiums with
  | None => Ok (HTTPException 404 "Stadium not found")
  | Some d =>
      location <- getitem d "location" ;;
      city <- getitem location "city" ;;
      Ok (Return (JObj
        [ ("stadium_id", JStr stadium_id);
          ("location", city);
          ("date", JStr (match date with
                         | Some (String a s) => String a s
                         | _ => today
                         end));
          ("temperature", JNum 75);
          ("temperature_unit", JStr "F");
          ("condition", JStr "Partly Cloudy");
          ("precipitation_chance", JNum 20);
          ("humidity", JNum 65);
          ("wind_speed", JNum 8);
          ("updated_at", JStr utcnow_isoformat) ]))
  end.

End Catalog.

(** The token a request carries, if it carries one. *)
Definition request_token (r : request) : option token :=
  match r with
  | Register _ | Login _ => None
  | CreateSchedule _ t | GetUserSchedules _ t | DeleteSchedule _ t
  | RegisterPushToken _ t => Some t
  end.

(** ** An instance of the library interface *)

(** Digests and signatures kept as tagged text instead of being computed:
    an instance of [Libs] under which the model runs on concrete
    requests. *)
Definition claims_text (c : claims) : string :=
  match sub c with Some s => "sub=" ++ s | None => "" end ++ ";" ++
  match exp c with Some e => "exp=" ++ str_int e | None => "" end.

Definition symbolic_libs : Libs :=
  {| md5_hexdigest := fun s => "md5(" ++ s ++ ")";
     sha256_hexdigest := fun s => "sha256(" ++ s ++ ")";
     hs256 := fun key alg c =>
       "hs256(" ++ key ++ "," ++ alg ++ "," ++ claims_text c ++ ")";
     str_datetime := str_int;
     compact := fun t =>
       match t with
       | Garbage raw => raw
       | JWS alg c signature => alg ++ "." ++ claims_text c ++ "." ++ signature
       end |}.

(** ** Notions used in the statements *)

(** The rows of a table whose text column [key] holds [k]. *)
Definition has_key {A : Type} (key : A -> string) (k : string) (x : A)
    : bool :=
  String.eqb (key x) k.

(** ** Rows written by the handlers *)

Section Rows.
Context {L : Libs}.

(** The row [register] inserts. *)
Definition registered_row (user : UserRegister.t) (now : Z) : user_row :=
  {| u_user_id := md5_hexdigest (UserRegister.email user);
     u_email := UserRegister.email user;
     u_password_hash := hash_password (UserRegister.password user);
     u_full_name := UserRegister.full_name user;
     u_created_at := now |}.

(** The row [create_schedule] inserts for a verified subject. *)
Definition created_row (schedule : Schedule.t) (user_id : string)
    (now : Z) : schedule_row :=
  {| s_schedule_id := md5_hexdigest (user_id ++ str_datetime now);
     s_user_id := user_id;
     s_schedule_name := Schedule.schedule_name schedule;
     s_match_ids := json_dumps (Schedule.match_ids schedule);
     s_created_at := now;
     s_updated_at := now |}.

End Rows.

(** An entry of a listing shows a row of the table. *)
Definition entry_of (r : schedule_row) (e : Entry.t) : Prop :=
  Entry.schedule_id e = s_schedule_id r
  /\ Entry.schedule_name e = s_schedule_name r
  /\ json_loads (s_match_ids r) = Some (Entry.match_ids e)
  /\ Entry.created_at e = s_created_at r
  /\ Entry.updated_at e = s_updated_at r.

(** Whether a character occurs in a text, and the decimal digits. *)
Fixpoint occurs (c : ascii) (s : string) : bool :=
  match s with
  | EmptyString => false
  | String a rest => Ascii.eqb a c || occurs c rest
  end.

Definition is_digit (c : ascii) : bool :=
  existsb (Ascii.eqb c) ["0"; "1"; "2"; "3"; "4"; "5"; "6"; "7"; "8"; "9"]%char.

(** A reply that gives the service nothing to use: the request raised (no
    connection, timeout), the status is a client or server error, or the
    body is not JSON. *)
Definition provider_failed (r : Providers.reply) : bool :=
  match r with
  | Providers.NoReply _ => true
  | Providers.Reply status_code body =>
      ((400 <=? status_code) && (status_code <? 600))
      || match body with None => true | Some _ => false end
  end.


(** The requests of a sequence that carry a token verifying to [B]. *)
Definition acts_as {L : Libs} (B : string) (r : request) (now : Z) : Prop :=
  exists t, request_token r = Some t /\ verify_token t now = Return B.

(** The routing table with every template split into its segments. *)
Definition route_segments : list (http_method * list string * endpoint) :=
  Eval cbv in
    map (fun r => (fst (fst r), split_on "/" (snd (fst r)), snd r)) routes.

Definition dispatch_segments (m : http_method) (segments : list string)
    : option endpoint :=
  match find (fun r => http_method_eqb (fst (fst r)) m
                       && segments_match (snd (fst r)) segments)
             route_segments with
  | Some r => Some (snd r)
  | None => None
  end.


(** An entry of the match list that is an object, and whether it is played
    at a stadium. *)
Definition is_object (m : Providers.json) : Prop :=
  exists members, m = Providers.JObj members.

Definition played_at (stadium_id : string) (m : Providers.json) : bool :=
  match Providers.dict_get m "stadium_id" Providers.JNull with
  | Providers.Ok v => Providers.eq_str v stadium_id
  | Providers.Raise _ => false
  end.

(** A stadium file that is not about a given stadium. *)
Definition other_stadium (stadium_id : string)
    (file : option Providers.json) : Prop :=
  forall d, file = Some d ->
            Providers.getitem d "stadium_id"
            <> Providers.Ok (Providers.JStr stadium_id).

(** The last document of the files that is about a stadium, [init] when
    there is none. *)
Fixpoint latest (stadium_id : string) (files : list (option Providers.json))
    (init : option Providers.json) : option Providers.json :=
  match files with
  | [] => init
  | None :: rest => latest stadium_id rest init
  | Some d :: rest =>
      match Providers.getitem d "stadium_id" with
      | Providers.Ok (Providers.JStr s) =>
          if String.eqb s stadium_id
          then latest stadium_id rest (Some d)
          else latest stadium_id rest init
      | _ => latest stadium_id rest init
      end
  end.

(** The keys of the payloads. *)
Definition traffic_keys : list string :=
  [ "distance_meters"; "distance_miles"; "duration_seconds";
    "duration_minutes"; "duration_in_traffic_seconds";
    "duration_in_traffic_minutes"; "traffic_level"; "traffic_delay_minutes";
    "mode"; "updated_at" ].

Definition weather_keys : list string :=
  [ "temperature"; "temperature_unit"; "condition"; "description";
    "precipitation_chance"; "humidity"; "wind_speed"; "feels_like";
    "updated_at" ].

(** An object with given keys, in order. *)
Definition has_keys (keys : list string) (v : Providers.json) : Prop :=
  exists members, v = Providers.JObj members /\ map fst members = keys.

(** An origin with both coordinates. *)
Definition has_coordinates (origin : list (string * Q)) : Prop :=
  exists lat lon,
    Providers.coordinate "lat" origin = Providers.Ok lat
    /\ Providers.coordinate "lon" origin = Providers.Ok lon.

(** What one result of [get_stadium_traffic] is, for an origin. *)
Definition result_for
    (requests_get : string -> list (string * Providers.json)
                    -> Providers.reply)
    (utcnow_isoformat : string) (format_float : Q -> string)
    (self : Providers.TrafficService) (stadium_lat stadium_lon : Q)
    (origin : list (string * Q)) (result : Providers.json) : Prop :=
  Providers.getitem result "origin"
  = Providers.Ok (Providers.origin_json origin)
  /\ exists lat lon payload,
       Providers.coordinate "lat" origin = Providers.Ok lat
       /\ Providers.coordinate "lon" origin = Providers.Ok lon
       /\ Providers.get_travel_time requests_get utcnow_isoformat
            format_float self lat lon stadium_lat stadium_lon "driving"
          = Providers.Ok payload
       /\ forall key, key <> "origin" ->
                      Providers.getitem result key
                      = Providers.getitem payload key.

(** A well-formed answer of the forecast provider with one item; [pop] is
    the probability of precipitation, which the provider may leave out. *)
Definition forecast_ok (temp humidity speed feels_like : Q) (pop : option Q)
    (condition description : string) : Providers.json :=
  Providers.JObj
    [ ("list",
       Providers.JArr
         [ Providers.JObj
             ([ ("main",
                 Providers.JObj
                   [ ("temp", Providers.JNum temp);
                     ("humidity", Providers.JNum humidity);
                     ("feels_like", Providers.JNum feels_like) ]);
                ("weather",
                 Providers.JArr
                   [ Providers.JObj
                       [ ("main", Providers.JStr condition);
                         ("description", Providers.JStr description) ] ]);
                ("wind",
                 Providers.JObj [ ("speed", Providers.JNum speed) ]) ]
              ++ match pop with
                 | Some p => [ ("pop", Providers.JNum p) ]
                 | None => []
                 end)%list ]) ].

(** The payload [get_forecast] builds from the four conversions of a
    forecast item, the mock payload when one of them raises. *)
Definition forecast_of (utcnow_isoformat : string) (humidity : Q)
    (condition description : string)
    (temperature precipitation_chance wind_speed feels_like
       : Providers.py Z) : Providers.json :=
  match temperature, precipitation_chance, wind_speed, feels_like with
  | Providers.Ok temperature, Providers.Ok precipitation_chance,
    Providers.Ok wind_speed, Providers.Ok feels_like =>
      Providers.JObj
        [ ("temperature", Providers.JNum (inject_Z temperature));
          ("temperature_unit", Providers.JStr "F");
          ("condition", Providers.JStr condition);
          ("description", Providers.JStr description);
          ("precipitation_chance",
           Providers.JNum (inject_Z precipitation_chance));
          ("humidity", Providers.JNum humidity);
          ("wind_speed", Providers.JNum (inject_Z wind_speed));
          ("feels_like", Providers.JNum (inject_Z feels_like));
          ("updated_at", Providers.JStr utcnow_isoformat) ]
  | _, _, _, _ => Providers._mock_weather_data utcnow_isoformat
  end.

(** ** A concrete run *)



Module Demo.

Definition alice : UserRegister.t :=
  {| UserRegister.email := "alice@example.com";
     UserRegister.password := "pw123";
     UserRegister.full_name := None |}.

Definition bob : UserRegister.t :=
  {| UserRegister.email := "bob@example.com";
     UserRegister.password := "hunter2";
     UserRegister.full_name := Some "Bob" |}.

Definition alice_id : string :=
  md5_hexdigest (Libs := symbolic_libs) "alice@example.com".

Definition bob_id : string :=
  md5_hexdigest (Libs := symbolic_libs) "bob@example.com".

Definition alice_token : token :=
  create_access_token (L := symbolic_libs) alice_id 1000.

Definition bob_token : token :=
  create_access_token (L := symbolic_libs) bob_id 1000.

Definition my_plan : Schedule.t :=
  {| Schedule.schedule_id := None;
     Schedule.schedule_name := "My Plan";
     Schedule.match_ids := [101; 102; 102; 103] |}.

(** Alice and Bob register, then Alice saves a plan. *)
Definition store : db :=
  run (L := symbolic_libs)
      [ (Register alice, 1000);
        (Register bob, 1000);
        (CreateSchedule my_plan alice_token, 2000) ]
      empty_db.

Definition alice_row : user_row :=
  {| u_user_id := alice_id;
     u_email := "alice@example.com";
     u_password_hash := sha256_hexdigest (Libs := symbolic_libs) "pw123";
     u_full_name := None;
     u_created_at := 1000 |}.

Definition plan_row : schedule_row :=
  {| s_schedule_id :=
       md5_hexdigest (Libs := symbolic_libs)
                     (alice_id ++ str_datetime (Libs := symbolic_libs) 2000);
     s_user_id := alice_id;
     s_schedule_name := "My Plan";
     s_match_ids := "[101, 102, 102, 103]";
     s_created_at := 2000;
     s_updated_at := 2000 |}.

(** Alice registers one device, then another. *)
Definition two_devices : list (request * Z) :=
  [ (RegisterPushToken {| PushToken.device_token := "device-1" |}
                       alice_token, 3000);
    (RegisterPushToken {| PushToken.device_token := "device-2" |}
                       alice_token, 3001) ].

(** A network that is down, and one where the distance matrix provider
    answers. *)
Definition network_down (url : string)
    (params : list (string * Providers.json)) : Providers.reply :=
  Providers.NoReply Providers.ConnectionError.


(** HS256 as HMAC over a digest kept as tagged text. *)
Definition hmac_demo : Libs :=
  hmac_libs symbolic_libs (fun s => "sha256(" ++ s ++ ")")
            (fun alg payload => alg ++ "." ++ claims_text payload).

Definition padded_key : string := SECRET_KEY ++ String NUL EmptyString.

Definition traffic : Providers.TrafficService :=
  {| Providers.t_api_key := "key";
     Providers.t_base_url :=
       "https://maps.googleapis.com/maps/api/distancematrix/json" |}.

Definition weather : Providers.WeatherService :=
  {| Providers.w_api_key := "key";
     Providers.w_base_url := "https://api.openweathermap.org/data/2.5" |}.

End Demo.

(** * Properties *)

(** ** Tokens *)

Section TokenFacts.
Context {L : Libs}.

Lemma jwt_decode_own_key (payload : claims) (now : Z) :
  jwt_decode (jwt_encode payload SECRET_KEY ALGORITHM) SECRET_KEY
             [ALGORITHM] now
  = match exp payload with
    | Some e => if e <=? now then inl ExpiredSignatureError else inr payload
    | None => inr payload
    end.
Proof.
  unfold jwt_decode, jwt_encode.
  replace (existsb (String.eqb ALGORITHM) [ALGORITHM]) with true
    by reflexivity.
  rewrite String.eqb_refl. reflexivity.
Qed.

Lemma verify_token_fresh (user_id : string) (issued_at now : Z) :
  now < issued_at + timedelta_minutes ACCESS_TOKEN_EXPIRE_MINUTES ->
  verify_token (create_access_token user_id issued_at) now = Return user_id.
Proof.
  intros Hlt. unfold verify_token, create_access_token.
  rewrite jwt_decode_own_key. cbn [exp sub].
  destruct (Z.leb_spec (issued_at + timedelta_minutes
                          ACCESS_TOKEN_EXPIRE_MINUTES) now) as [Hle | _].
  - lia.
  - reflexivity.
Qed.

Lemma verify_token_expired (user_id : string) (issued_at now : Z) :
  issued_at + timedelta_minutes ACCESS_TOKEN_EXPIRE_MINUTES <= now ->
  verify_token (create_access_token user_id issued_at) now
  = HTTPException 401 "Token expired".
Proof.
  intros Hle. unfold verify_token, create_access_token.
  rewrite jwt_decode_own_key. cbn [exp sub].
  destruct (Z.leb_spec (issued_at + timedelta_minutes
                          ACCESS_TOKEN_EXPIRE_MINUTES) now) as [_ | Hlt].
  - reflexivity.
  - lia.
Qed.

Lemma verify_token_foreign_key (key alg : string) (payload : claims)
    (now : Z) :
  hs256 key alg payload <> hs256 SECRET_KEY alg payload ->
  verify_token (jwt_encode payload key alg) now = Uncaught AttributeError.
Proof.
  intros Hsig. unfold verify_token, jwt_decode, jwt_encode.
  destruct (existsb (String.eqb alg) [ALGORITHM]); cbn [negb].
  - apply String.eqb_neq in Hsig. rewrite Hsig. reflexivity.
  - reflexivity.
Qed.

(** Two keys with the same signature of a claim set sign the same
    token. *)
Lemma jwt_encode_same_signature (key key' alg : string) (payload : claims) :
  hs256 key alg payload = hs256 key' alg payload ->
  jwt_encode payload key alg = jwt_encode payload key' alg.
Proof.
  intros Hsig. unfold jwt_encode. rewrite Hsig. reflexivity.
Qed.

(** A token that verifies never does so as an error in disguise: the
    only successful outcome carries the subject of a correctly signed,
    unexpired claim set. *)
Lemma verify_token_Return (t : token) (now : Z) (user_id : string) :
  verify_token t now = Return user_id ->
  exists payload,
    t = JWS ALGORITHM payload (hs256 SECRET_KEY ALGORITHM payload)
    /\ sub payload = Some user_id
    /\ match exp payload with Some e => now < e | None => True end.
Proof.
  unfold verify_token, jwt_decode.
  destruct t as [raw | alg payload signature]; [discriminate |].
  destruct (existsb (String.eqb alg) [ALGORITHM]) eqn:Halg;
    cbn [negb]; [| discriminate].
  destruct (String.eqb signature (hs256 SECRET_KEY alg payload)) eqn:Hsig;
    cbn [negb]; [| discriminate].
  cbn [existsb] in Halg. rewrite orb_false_r in Halg.
  apply String.eqb_eq in Halg. apply String.eqb_eq in Hsig. subst.
  destruct (exp payload) as [e |] eqn:He.
  - destruct (Z.leb_spec e now); [discriminate |].
    destruct (sub payload) eqn:Hs; [| discriminate].
    intros [= <-]. exists payload. rewrite He. auto.
  - destruct (sub payload) eqn:Hs; [| discriminate].
    intros [= <-]. exists payload. rewrite He. auto.
Qed.

(** The only error answer of [verify_token] is the one for an expired
    token, correctly signed. *)
Lemma verify_token_Expired (t : token) (now : Z) :
  verify_token t now = HTTPException 401 "Token expired" ->
  exists payload e,
    t = JWS ALGORITHM payload (hs256 SECRET_KEY ALGORITHM payload)
    /\ exp payload = Some e
    /\ e <= now.
Proof.
  unfold verify_token, jwt_decode.
  destruct t as [raw | alg payload signature]; [discriminate |].
  destruct (existsb (String.eqb alg) [ALGORITHM]) eqn:Halg;
    cbn [negb]; [| discriminate].
  destruct (String.eqb signature (hs256 SECRET_KEY alg payload)) eqn:Hsig;
    cbn [negb]; [| discriminate].
  cbn [existsb] in Halg. rewrite orb_false_r in Halg.
  apply String.eqb_eq in Halg. apply String.eqb_eq in Hsig. subst.
  destruct (exp payload) as [e |] eqn:He.
  - destruct (Z.leb_spec e now) as [Hle | _].
    + intros _. exists payload, e. auto.
    + destruct (sub payload); discriminate.
  - destruct (sub payload); discriminate.
Qed.

Lemma verify_token_outcomes (t : token) (now : Z) :
  (exists user_id, verify_token t now = Return user_id)
  \/ verify_token t now = HTTPException 401 "Token expired"
  \/ verify_token t now = Uncaught AttributeError.
Proof.
  unfold verify_token.
  destruct (jwt_decode t SECRET_KEY [ALGORITHM] now) as [[| | |] | payload];
    auto.
  destruct (sub payload) as [user_id |]; eauto.
Qed.

End TokenFacts.

(** ** Keys under HMAC *)

Section HmacFacts.
Variable digest : string -> string.

Lemma length_append (a b : string) :
  String.length (a ++ b) = (String.length a + String.length b)%nat.
Proof.
  induction a as [| c a IH]; cbn [String.append String.length].
  - reflexivity.
  - rewrite IH. reflexivity.
Qed.

Lemma append_assoc (a b c : string) : (a ++ b) ++ c = a ++ (b ++ c).
Proof.
  induction a as [| x a IH]; cbn [String.append].
  - reflexivity.
  - rewrite IH. reflexivity.
Qed.

Lemma zeros_length (n : nat) : String.length (zeros n) = n.
Proof.
  induction n as [| n IH]; cbn [zeros String.length]; congruence.
Qed.

Lemma xor_with_length (pad : ascii) (s : string) :
  String.length (xor_with pad s) = String.length s.
Proof.
  induction s as [| c s IH]; cbn [xor_with String.length]; congruence.
Qed.

Lemma xorb_cancel (p x y : bool) : xorb p x = xorb p y -> x = y.
Proof.
  destruct p, x, y; cbn; congruence.
Qed.

Lemma xor_ascii_inj (pad a b : ascii) :
  xor_ascii pad a = xor_ascii pad b -> a = b.
Proof.
  destruct pad, a, b. cbn [xor_ascii]. intros H. injection H as H0 H1 H2 H3 H4 H5 H6 H7.
  apply xorb_cancel in H0, H1, H2, H3, H4, H5, H6, H7. subst. reflexivity.
Qed.

Lemma xor_with_inj (pad : ascii) (a b : string) :
  xor_with pad a = xor_with pad b -> a = b.
Proof.
  revert b. induction a as [| x a IH]; intros [| y b]; cbn [xor_with];
    try discriminate.
  - reflexivity.
  - intros H. injection H as Hx Hrest.
    apply xor_ascii_inj in Hx. apply IH in Hrest. subst. reflexivity.
Qed.

(** Two texts that start with prefixes of one length start with the same
    prefix. *)
Lemma append_same_length (a b x y : string) :
  String.length a = String.length b -> a ++ x = b ++ y -> a = b.
Proof.
  revert b. induction a as [| c a IH]; intros [| d b];
    cbn [String.length String.append]; try discriminate.
  - reflexivity.
  - intros Hlen H. injection Hlen as Hlen. injection H as Hc Hrest.
    rewrite Hc, (IH b Hlen Hrest). reflexivity.
Qed.

(** A key that fits a block, or whose digest does (as every digest of
    SHA-256 does), fills exactly one block. *)
Lemma block_key_length (key : string) :
  (String.length key <= block_size
   \/ String.length (digest key) <= block_size)%nat ->
  String.length (block_key digest key) = block_size.
Proof.
  intros Hfit. unfold block_key.
  destruct (Nat.ltb_spec block_size (String.length key)) as [Hlong | Hshort];
    rewrite length_append, zeros_length; lia.
Qed.

(** NUL bytes at the end of a key shorter than a block leave its block as
    it is. *)
Lemma block_key_NUL (key : string) :
  (String.length key < block_size)%nat ->
  block_key digest (key ++ String NUL EmptyString) = block_key digest key.
Proof.
  intros Hshort. unfold block_key.
  rewrite length_append. cbn [String.length].
  destruct (Nat.ltb_spec block_size (String.length key + 1)) as [Hlt | _];
    [lia |].
  destruct (Nat.ltb_spec block_size (String.length key)) as [Hlt | _];
    [lia |].
  rewrite length_append. cbn [String.length].
  replace (block_size - String.length key)%nat
    with (S (block_size - (String.length key + 1)))%nat by lia.
  cbn [zeros]. rewrite append_assoc. reflexivity.
Qed.

Lemma hmac_NUL (key msg : string) :
  (String.length key < block_size)%nat ->
  hmac digest (key ++ String NUL EmptyString) msg = hmac digest key msg.
Proof.
  intros Hshort. unfold hmac, hmac_outer.
  rewrite (block_key_NUL key Hshort). reflexivity.
Qed.

(** Keys with different blocks give different signatures, unless the
    digest collides on the two texts of the outer application. *)
Lemma hmac_other_block (key key' msg : string) :
  (String.length key <= block_size
   \/ String.length (digest key) <= block_size)%nat ->
  (String.length key' <= block_size
   \/ String.length (digest key') <= block_size)%nat ->
  block_key digest key <> block_key digest key' ->
  collision_free digest (hmac_outer digest key msg)
                 (hmac_outer digest key' msg) ->
  hmac digest key msg <> hmac digest key' msg.
Proof.
  intros Hfit Hfit' Hblock Hfree Heq. apply Hblock.
  apply Hfree in Heq. unfold hmac_outer in Heq.
  apply append_same_length in Heq.
  - exact (xor_with_inj _ _ _ Heq).
  - rewrite !xor_with_length, !block_key_length by assumption. reflexivity.
Qed.

End HmacFacts.

Lemma SECRET_KEY_length : String.length SECRET_KEY = 41%nat.
Proof. reflexivity. Qed.

(** The process key followed by a NUL byte signs, under HS256, the very
    tokens the process key signs. *)
Lemma jwt_encode_NUL_key (base : Libs) (digest : string -> string)
    (signing_input : string -> claims -> string) (payload : claims)
    (alg : string) :
  jwt_encode (L := hmac_libs base digest signing_input) payload
             (SECRET_KEY ++ String NUL EmptyString) alg
  = jwt_encode (L := hmac_libs base digest signing_input) payload
               SECRET_KEY alg.
Proof.
  apply jwt_encode_same_signature. cbn [hs256 hmac_libs].
  apply hmac_NUL. rewrite SECRET_KEY_length. unfold block_size. lia.
Qed.

(** C2. A token issued for subject [S] verifies to [S] at every instant
    strictly before its expiry, seven days after it was issued, and is
    refused as expired (401, "Token expired") at every instant strictly
    after the expiry.  With HS256 computed as HMAC over a digest whose
    values fit a block, a token signed under a key whose block differs
    from the block of the process key never verifies to any identity,
    whatever its algorithm, claims or age, provided the digest does not
    collide on the two texts of its outer application. *)
Theorem token_lifecycle {L : Libs} (S : string) (issued_at : Z) :
  let expires_at := issued_at + 7 * 24 * 60 * 60 in
  (forall now, now < expires_at ->
     verify_token (create_access_token S issued_at) now = Return S)
  /\ (forall now, expires_at < now ->
        verify_token (create_access_token S issued_at) now
        = HTTPException 401 "Token expired")
  /\ (forall digest signing_input key alg payload now,
        (String.length (digest key) <= block_size)%nat ->
        block_key digest key <> block_key digest SECRET_KEY ->
        collision_free digest
          (hmac_outer digest key (signing_input alg payload))
          (hmac_outer digest SECRET_KEY (signing_input alg payload)) ->
        forall user_id,
          verify_token (L := hmac_libs L digest signing_input)
            (jwt_encode (L := hmac_libs L digest signing_input)
               payload key alg) now
          <> Return user_id).
Proof.
  cbv zeta.
  assert (Httl : timedelta_minutes ACCESS_TOKEN_EXPIRE_MINUTES
                 = 7 * 24 * 60 * 60) by reflexivity.
  split; [| split].
  - intros now Hnow. apply verify_token_fresh. rewrite Httl. exact Hnow.
  - intros now Hnow. apply verify_token_expired. rewrite Httl. lia.
  - intros digest signing_input key alg payload now Hfit Hblock Hfree user_id.
    rewrite (verify_token_foreign_key (L := hmac_libs L digest signing_input)
               key alg payload now); [discriminate |].
    cbn [hs256 hmac_libs]. apply hmac_other_block.
    + right. exact Hfit.
    + left. rewrite SECRET_KEY_length. unfold block_size. lia.
    + exact Hblock.
    + exact Hfree.
Qed.

(** A key other than the process key whose tokens the process accepts:
    the process key followed by a NUL byte, whatever the digest HMAC is
    built on. *)
Lemma NUL_padded_key_accepted :
  Demo.padded_key <> SECRET_KEY
  /\ forall (base : Libs) (digest : string -> string)
            (signing_input : string -> claims -> string),
       verify_token (L := hmac_libs base digest signing_input)
         (jwt_encode (L := hmac_libs base digest signing_input)
            {| sub := Some "mallory"; exp := None |}
            Demo.padded_key ALGORITHM) 1000
       = Return "mallory".
Proof.
  split.
  - intros Heq. apply (f_equal String.length) in Heq.
    vm_compute in Heq. discriminate Heq.
  - intros base digest signing_input. unfold Demo.padded_key.
    rewrite jwt_encode_NUL_key. unfold verify_token.
    rewrite jwt_decode_own_key. reflexivity.
Qed.

(** ** Tables with a unique text column *)

Section Keyed.
Variable A : Type.
Variable key : A -> string.

Lemma existsb_has_key_false (k : string) (l : list A) :
  existsb (has_key key k) l = false <-> ~ In k (map key l).
Proof.
  induction l as [| a l IH]; cbn [existsb map In].
  - tauto.
  - rewrite orb_false_iff, IH. unfold has_key.
    destruct (String.eqb_spec (key a) k) as [Heq | Hne].
    + split; [intros [? _]; discriminate | intros H; exfalso; auto].
    + split; [intros [_ H] [Hk | Hk]; auto | intros H; split; auto].
Qed.

Lemma filter_has_key_nil (k : string) (l : list A) :
  ~ In k (map key l) -> filter (has_key key k) l = [].
Proof.
  induction l as [| a l IH]; cbn [filter map In]; intros Hnot.
  - reflexivity.
  - unfold has_key at 1.
    destruct (String.eqb_spec (key a) k) as [Heq | Hne].
    + exfalso. auto.
    + apply IH. auto.
Qed.

Lemma filter_has_key_unique (k : string) (l : list A) :
  NoDup (map key l) -> (List.length (filter (has_key key k) l) <= 1)%nat.
Proof.
  induction l as [| a l IH]; cbn [filter map]; intros Hnd.
  - cbn. lia.
  - inversion Hnd as [| ? ? Hnot Hnd']; subst.
    unfold has_key at 1.
    destruct (String.eqb_spec (key a) k) as [Heq | Hne].
    + subst k. rewrite (filter_has_key_nil _ _ Hnot). cbn. lia.
    + apply IH. exact Hnd'.
Qed.

Lemma NoDup_key_inj (l : list A) (a b : A) :
  NoDup (map key l) -> In a l -> In b l -> key a = key b -> a = b.
Proof.
  induction l as [| x l IH]; cbn [map In]; intros Hnd Ha Hb Hk.
  - contradiction.
  - inversion Hnd as [| ? ? Hnot Hnd']; subst.
    destruct Ha as [-> | Ha], Hb as [-> | Hb].
    + reflexivity.
    + exfalso. apply Hnot. rewrite Hk. apply in_map. exact Hb.
    + exfalso. apply Hnot. rewrite <- Hk. apply in_map. exact Ha.
    + apply IH; assumption.
Qed.

Lemma NoDup_key_filter (g : A -> bool) (l : list A) :
  NoDup (map key l) -> NoDup (map key (filter g l)).
Proof.
  induction l as [| x l IH]; cbn [map filter]; intros Hnd.
  - constructor.
  - inversion Hnd as [| ? ? Hnot Hnd']; subst.
    destruct (g x); cbn [map].
    + constructor; [| apply IH; exact Hnd'].
      intros Hin. apply Hnot.
      apply in_map_iff in Hin. destruct Hin as (y & Hy & Hin).
      apply filter_In in Hin. rewrite <- Hy. apply in_map. tauto.
    + apply IH. exact Hnd'.
Qed.

Lemma NoDup_key_snoc (l : list A) (a : A) :
  NoDup (map key l) -> ~ In (key a) (map key l) ->
  NoDup (map key (l ++ [a])).
Proof.
  induction l as [| x l IH]; cbn [map app In]; intros Hnd Hnot.
  - constructor; [intros [] | constructor].
  - inversion Hnd as [| ? ? Hx Hnd']; subst.
    constructor.
    + rewrite map_app, in_app_iff. cbn [map In].
      intros [Hin | [Heq | []]]; [auto | apply Hnot; auto].
    + apply IH; auto.
Qed.

Lemma filter_not_key_absent (k : string) (l : list A) :
  ~ In k (map key (filter (fun x => negb (has_key key k x)) l)).
Proof.
  intros Hin. apply in_map_iff in Hin. destruct Hin as (y & Hy & Hin).
  apply filter_In in Hin. destruct Hin as [_ Hneg].
  unfold has_key in Hneg. rewrite Hy, String.eqb_refl in Hneg.
  discriminate.
Qed.

End Keyed.


Lemma find_none_all {A : Type} (f : A -> bool) (l : list A) :
  (forall x, In x l -> f x = false) -> find f l = None.
Proof.
  induction l as [| a l IH]; cbn [find In]; intros Hall.
  - reflexivity.
  - rewrite (Hall a) by auto. apply IH. auto.
Qed.

Lemma filter_none {A : Type} (f : A -> bool) (l : list A) :
  (forall x, In x l -> f x = false) -> filter f l = [].
Proof.
  induction l as [| a l IH]; cbn [filter In]; intros Hall.
  - reflexivity.
  - rewrite (Hall a) by auto. apply IH. auto.
Qed.

Lemma filter_all {A : Type} (f : A -> bool) (l : list A) :
  (forall x, In x l -> f x = true) -> filter f l = l.
Proof.
  induction l as [| a l IH]; cbn [filter In]; intros Hall.
  - reflexivity.
  - rewrite (Hall a) by auto. f_equal. apply IH. auto.
Qed.

(** ** What each handler does to the store *)

Section HandlerFacts.
Context {L : Libs}.

Lemma insert_user_Some (r : user_row) (conn conn' : db) :
  insert_user r conn = Some conn' ->
  users conn' = (users conn ++ [r])%list
  /\ schedules conn' = schedules conn
  /\ push_tokens conn' = push_tokens conn
  /\ ~ In (u_user_id r) (map u_user_id (users conn))
  /\ ~ In (u_email r) (map u_email (users conn)).
Proof.
  unfold insert_user.
  destruct (existsb _ (users conn)) eqn:Hex; [discriminate |].
  intros [= <-]. cbn [users schedules push_tokens].
  repeat split; try reflexivity.
  - apply (existsb_has_key_false _ u_user_id).
    apply not_true_is_false. intros Hin. apply existsb_exists in Hin.
    destruct Hin as (x & Hx & Hk).
    assert (Hall : existsb (fun x => String.eqb (u_user_id x) (u_user_id r)
                             || String.eqb (u_email x) (u_email r))
                           (users conn) = true).
    { apply existsb_exists. exists x. split; [exact Hx |].
      unfold has_key in Hk. rewrite Hk. reflexivity. }
    congruence.
  - apply (existsb_has_key_false _ u_email).
    apply not_true_is_false. intros Hin. apply existsb_exists in Hin.
    destruct Hin as (x & Hx & Hk).
    assert (Hall : existsb (fun x => String.eqb (u_user_id x) (u_user_id r)
                             || String.eqb (u_email x) (u_email r))
                           (users conn) = true).
    { apply existsb_exists. exists x. split; [exact Hx |].
      unfold has_key in Hk. rewrite Hk. apply orb_true_r. }
    congruence.
Qed.

Lemma insert_schedule_Some (r : schedule_row) (conn conn' : db) :
  insert_schedule r conn = Some conn' ->
  users conn' = users conn
  /\ schedules conn' = (schedules conn ++ [r])%list
  /\ push_tokens conn' = push_tokens conn
  /\ ~ In (s_schedule_id r) (map s_schedule_id (schedules conn)).
Proof.
  unfold insert_schedule.
  destruct (existsb _ (schedules conn)) eqn:Hex; [discriminate |].
  intros [= <-]. cbn [users schedules push_tokens].
  repeat split; try reflexivity.
  apply (existsb_has_key_false _ s_schedule_id). exact Hex.
Qed.

Lemma insert_schedule_fresh (r : schedule_row) (conn : db) :
  ~ In (s_schedule_id r) (map s_schedule_id (schedules conn)) ->
  insert_schedule r conn
  = Some {| users := users conn;
            schedules := schedules conn ++ [r];
            push_tokens := push_tokens conn |}.
Proof.
  intros Hfresh. unfold insert_schedule.
  apply (existsb_has_key_false _ s_schedule_id) in Hfresh.
  unfold has_key in Hfresh. rewrite Hfresh. reflexivity.
Qed.

(** The outcomes of [register], case by case. *)
Lemma register_cases (user : UserRegister.t) (now : Z) (conn : db) :
  (In (UserRegister.email user) (map u_email (users conn))
   /\ register user now conn
      = (conn, HTTPException 400 "Email already registered"))
  \/ (~ In (UserRegister.email user) (map u_email (users conn))
      /\ register user now conn = (conn, Uncaught IntegrityError))
  \/ (~ In (UserRegister.email user) (map u_email (users conn))
      /\ exists conn',
           insert_user (registered_row user now) conn = Some conn'
           /\ register user now conn
              = (conn',
                 Return
                   {| Token.access_token :=
                        create_access_token
                          (md5_hexdigest (UserRegister.email user)) now;
                      Token.token_type := "bearer";
                      Token.user_id :=
                        md5_hexdigest (UserRegister.email user) |})).
Proof.
  unfold register.
  destruct (existsb (fun r => String.eqb (u_email r)
                                (UserRegister.email user)) (users conn))
    eqn:Hex.
  - left. split; [| reflexivity].
    destruct (in_dec string_dec (UserRegister.email user)
                     (map u_email (users conn))) as [Hin | Hnot];
      [exact Hin |].
    apply (existsb_has_key_false _ u_email) in Hnot.
    unfold has_key in Hnot. congruence.
  - right.
    assert (Hnot : ~ In (UserRegister.email user)
                       (map u_email (users conn))).
    { apply (existsb_has_key_false _ u_email). exact Hex. }
    fold (registered_row user now).
    destruct (insert_user (registered_row user now) conn) as [conn' |]
      eqn:Hins.
    + right. split; [exact Hnot |]. exists conn'. split; reflexivity.
    + left. split; [exact Hnot | reflexivity].
Qed.

Lemma login_store (user : UserLogin.t) (now : Z) (conn : db) :
  fst (login user now conn) = conn.
Proof.
  unfold login. destruct (find _ (users conn)); reflexivity.
Qed.

Lemma get_user_schedules_store (user_id : string) (t : token) (now : Z)
    (conn : db) :
  fst (get_user_schedules user_id t now conn) = conn.
Proof.
  unfold get_user_schedules, and_then.
  destruct (verify_token t now); try reflexivity.
  destruct (entries_of _); reflexivity.
Qed.

(** The store after [create_schedule]: as before, or with one more
    schedule whose id was not taken and whose text is a [json.dumps]. *)
Lemma create_schedule_store (schedule : Schedule.t) (t : token) (now : Z)
    (conn : db) :
  fst (create_schedule schedule t now conn) = conn
  \/ exists r,
       users (fst (create_schedule schedule t now conn)) = users conn
       /\ schedules (fst (create_schedule schedule t now conn))
          = (schedules conn ++ [r])%list
       /\ push_tokens (fst (create_schedule schedule t now conn))
          = push_tokens conn
       /\ ~ In (s_schedule_id r) (map s_schedule_id (schedules conn))
       /\ s_match_ids r = json_dumps (Schedule.match_ids schedule).
Proof.
  unfold create_schedule, and_then.
  destruct (verify_token t now) as [user_id | c d | e];
    [| left; reflexivity | left; reflexivity].
  match goal with
  | |- context [insert_schedule ?r conn] =>
      destruct (insert_schedule r conn) as [conn' |] eqn:Hins;
      [right; exists r | left; reflexivity]
  end.
  apply insert_schedule_Some in Hins.
  destruct Hins as (Hu & Hs & Hp & Hfresh). cbn [fst].
  repeat split; assumption || reflexivity.
Qed.

Lemma delete_schedule_store (schedule_id : string) (t : token) (now : Z)
    (conn : db) :
  fst (delete_schedule schedule_id t now conn) = conn
  \/ exists g,
       users (fst (delete_schedule schedule_id t now conn)) = users conn
       /\ schedules (fst (delete_schedule schedule_id t now conn))
          = filter g (schedules conn)
       /\ push_tokens (fst (delete_schedule schedule_id t now conn))
          = push_tokens conn.
Proof.
  unfold delete_schedule, and_then.
  destruct (verify_token t now) as [user_id | c d | e];
    [| left; reflexivity | left; reflexivity].
  right. unfold delete_schedule_rows.
  exists (fun x => negb (String.eqb (s_schedule_id x) schedule_id
                         && String.eqb (s_user_id x) user_id)).
  destruct (Nat.eqb _ 0); cbn [fst users schedules push_tokens];
    repeat split; reflexivity.
Qed.

Lemma register_push_token_store (push_token : PushToken.t) (t : token)
    (now : Z) (conn : db) :
  fst (register_push_token push_token t now conn) = conn
  \/ exists user_id,
       verify_token t now = Return user_id
       /\ fst (register_push_token push_token t now conn)
          = insert_or_replace_push
              {| p_user_id := user_id;
                 p_device_token := PushToken.device_token push_token;
                 p_updated_at := now |} conn.
Proof.
  unfold register_push_token, and_then.
  destruct (verify_token t now) as [user_id | c d | e];
    [| left; reflexivity | left; reflexivity].
  right. exists user_id. split; reflexivity.
Qed.

End HandlerFacts.

(** ** Invariants of the store *)

Section Invariants.
Context {L : Libs}.

(** Only a successful [register] changes table [users], by one row whose
    email was not there. *)
Lemma handle_users (r : request) (now : Z) (conn : db) :
  users (handle r now conn) = users conn
  \/ exists row,
       users (handle r now conn) = (users conn ++ [row])%list
       /\ ~ In (u_user_id row) (map u_user_id (users conn))
       /\ ~ In (u_email row) (map u_email (users conn)).
Proof.
  destruct r as [user | user | schedule t | user_id t | schedule_id t
                 | push_token t]; cbn [handle].
  - destruct (register_cases user now conn)
      as [[_ ->] | [[_ ->] | (_ & conn' & Hins & ->)]];
      [left; reflexivity | left; reflexivity |].
    right. exists (registered_row user now).
    apply insert_user_Some in Hins. cbn [fst]. tauto.
  - rewrite login_store. left; reflexivity.
  - destruct (create_schedule_store schedule t now conn)
      as [-> | (row & -> & _)]; left; reflexivity.
  - rewrite get_user_schedules_store. left; reflexivity.
  - destruct (delete_schedule_store schedule_id t now conn)
      as [-> | (g & -> & _)]; left; reflexivity.
  - destruct (register_push_token_store push_token t now conn)
      as [-> | (user_id & _ & ->)]; left; reflexivity.
Qed.

Lemma handle_db_ok (r : request) (now : Z) (conn : db) :
  db_ok conn -> db_ok (handle r now conn).
Proof.
  intros [Hu He Hs Hp].
  destruct r as [user | user | schedule t | user_id t | schedule_id t
                 | push_token t]; cbn [handle].
  - destruct (register_cases user now conn)
      as [[_ ->] | [[_ ->] | (_ & conn' & Hins & ->)]];
      [constructor; assumption | constructor; assumption |].
    apply insert_user_Some in Hins.
    destruct Hins as (Hus & Hss & Hps & Hfid & Hfem). cbn [fst].
    constructor; rewrite ?Hus, ?Hss, ?Hps; try assumption.
    + apply NoDup_key_snoc; assumption.
    + apply NoDup_key_snoc; assumption.
  - rewrite login_store. constructor; assumption.
  - destruct (create_schedule_store schedule t now conn)
      as [-> | (row & Hus & Hss & Hps & Hfresh & _)];
      [constructor; assumption |].
    constructor; rewrite ?Hus, ?Hss, ?Hps; try assumption.
    apply NoDup_key_snoc; assumption.
  - rewrite get_user_schedules_store. constructor; assumption.
  - destruct (delete_schedule_store schedule_id t now conn)
      as [-> | (g & Hus & Hss & Hps)]; [constructor; assumption |].
    constructor; rewrite ?Hus, ?Hss, ?Hps; try assumption.
    apply NoDup_key_filter. assumption.
  - destruct (register_push_token_store push_token t now conn)
      as [-> | (user_id & _ & ->)]; [constructor; assumption |].
    unfold insert_or_replace_push.
    constructor; cbn [users schedules push_tokens]; try assumption.
    apply NoDup_key_snoc.
    + apply NoDup_key_filter. assumption.
    + cbn [p_user_id]. apply (filter_not_key_absent _ p_user_id).
Qed.

Lemma run_db_ok (rs : list (request * Z)) (conn : db) :
  db_ok conn -> db_ok (run rs conn).
Proof.
  revert conn. induction rs as [| [r now] rs IH]; intros conn Hok.
  - exact Hok.
  - cbn [run]. apply IH. apply handle_db_ok. exact Hok.
Qed.

Lemma empty_db_ok : db_ok empty_db.
Proof. constructor; cbn; constructor. Qed.

Lemma empty_db_match_ids_ok : match_ids_ok empty_db.
Proof. constructor. Qed.

Lemma handle_match_ids_ok (r : request) (now : Z) (conn : db) :
  match_ids_ok conn -> match_ids_ok (handle r now conn).
Proof.
  unfold match_ids_ok. intros Hok.
  destruct r as [user | user | schedule t | user_id t | schedule_id t
                 | push_token t]; cbn [handle].
  - destruct (register_cases user now conn)
      as [[_ ->] | [[_ ->] | (_ & conn' & Hins & ->)]];
      [assumption | assumption |].
    apply insert_user_Some in Hins.
    destruct Hins as (_ & Hss & _). cbn [fst]. rewrite Hss. assumption.
  - rewrite login_store. assumption.
  - destruct (create_schedule_store schedule t now conn)
      as [-> | (row & _ & Hss & _ & _ & Htext)]; [assumption |].
    rewrite Hss. apply Forall_app. split; [assumption |].
    constructor; [| constructor]. eexists. exact Htext.
  - rewrite get_user_schedules_store. assumption.
  - destruct (delete_schedule_store schedule_id t now conn)
      as [-> | (g & _ & Hss & _)]; [assumption |].
    rewrite Hss. rewrite Forall_forall in *.
    intros x Hx. apply filter_In in Hx. apply Hok. tauto.
  - destruct (register_push_token_store push_token t now conn)
      as [-> | (user_id & _ & ->)]; assumption.
Qed.

Lemma run_match_ids_ok (rs : list (request * Z)) (conn : db) :
  match_ids_ok conn -> match_ids_ok (run rs conn).
Proof.
  revert conn. induction rs as [| [r now] rs IH]; intros conn Hok.
  - exact Hok.
  - cbn [run]. apply IH. apply handle_match_ids_ok. exact Hok.
Qed.

(** Every store the server reaches from a fresh database meets the
    constraints of the schema and holds only [json.dumps] texts. *)
Lemma reachable_ok (rs : list (request * Z)) :
  db_ok (run rs empty_db) /\ match_ids_ok (run rs empty_db).
Proof.
  split.
  - apply run_db_ok, empty_db_ok.
  - apply run_match_ids_ok, empty_db_match_ids_ok.
Qed.

(** Once an email is in the store, the rows that carry it stay the
    same. *)
Lemma handle_users_with_email (e : string) (r : request) (now : Z)
    (conn : db) :
  In e (map u_email (users conn)) ->
  users_with_email e (handle r now conn) = users_with_email e conn
  /\ In e (map u_email (users (handle r now conn))).
Proof.
  intros Hin. unfold users_with_email.
  destruct (handle_users r now conn) as [-> | (row & -> & _ & Hfresh)].
  - auto.
  - rewrite filter_app, map_app, in_app_iff. cbn [filter].
    destruct (String.eqb_spec (u_email row) e) as [Heq | Hne].
    + exfalso. apply Hfresh. rewrite Heq. exact Hin.
    + rewrite app_nil_r. auto.
Qed.

Lemma run_users_with_email (e : string) (rs : list (request * Z))
    (conn : db) :
  In e (map u_email (users conn)) ->
  users_with_email e (run rs conn) = users_with_email e conn
  /\ In e (map u_email (users (run rs conn))).
Proof.
  revert conn. induction rs as [| [r now] rs IH]; intros conn Hin.
  - auto.
  - cbn [run].
    destruct (handle_users_with_email e r now conn Hin) as [Heq Hin'].
    destruct (IH _ Hin') as [Heq' Hin'']. rewrite Heq', Heq. auto.
Qed.

End Invariants.

(** ** Registration and login *)

(** C3. Once [register] has succeeded for an email, every later [register]
    for that email, whatever its password and display name and whatever
    requests were served in between, is refused with 400 "Email already
    registered", leaves the store as it is, and the store holds exactly
    one row of [users] with that email. *)
Theorem register_duplicate_email {L : Libs} (conn0 conn1 : db)
    (first second : UserRegister.t) (now1 now2 : Z) (issued : Token.t)
    (between : list (request * Z)) :
  register first now1 conn0 = (conn1, Return issued) ->
  UserRegister.email second = UserRegister.email first ->
  register second now2 (run between conn1)
  = (run between conn1, HTTPException 400 "Email already registered")
  /\ List.length (users_with_email (UserRegister.email first)
                                   (run between conn1)) = 1%nat.
Proof.
  intros Hreg Hsame.
  destruct (register_cases first now1 conn0)
    as [[_ H] | [[_ H] | (Hnew & conn' & Hins & H)]];
    rewrite H in Hreg; try discriminate.
  injection Hreg as <- _.
  apply insert_user_Some in Hins. destruct Hins as (Hus & _).
  assert (Hin : In (UserRegister.email first) (map u_email (users conn'))).
  { rewrite Hus, map_app, in_app_iff. right. cbn. auto. }
  destruct (run_users_with_email _ between conn' Hin) as [Hrows Hin'].
  split.
  - destruct (register_cases second now2 (run between conn'))
      as [[_ H2] | [[Hnot _] | (Hnot & _)]].
    + exact H2.
    + exfalso. apply Hnot. rewrite Hsame. exact Hin'.
    + exfalso. apply Hnot. rewrite Hsame. exact Hin'.
  - rewrite Hrows. unfold users_with_email. rewrite Hus, filter_app.
    pose proof (filter_has_key_nil _ u_email _ _ Hnew) as Hnil.
    unfold has_key in Hnil. rewrite Hnil.
    cbn [filter app registered_row u_email].
    rewrite String.eqb_refl. reflexivity.
Qed.

(** C4. For a stored identity with email [e] and password [p], a login
    with [e] and another password [p'] (one whose digest is not that of
    [p]) and a login with an email that is not in the store both fail, and
    with the very same outcome: 401 "Invalid email or password", the store
    untouched. *)
Theorem login_failures_indistinguishable {L : Libs} (conn : db)
    (identity : user_row) (p p' unknown_email any_password : string)
    (now now' : Z) :
  db_ok conn ->
  In identity (users conn) ->
  u_password_hash identity = hash_password p ->
  p' <> p ->
  collision_free sha256_hexdigest p' p ->
  ~ In unknown_email (map u_email (users conn)) ->
  login {| UserLogin.email := u_email identity;
           UserLogin.password := p' |} now conn
  = (conn, HTTPException 401 "Invalid email or password")
  /\ login {| UserLogin.email := unknown_email;
              UserLogin.password := any_password |} now' conn
     = (conn, HTTPException 401 "Invalid email or password").
Proof.
  intros Hok Hin Hhash Hp Hfree Hunknown.
  unfold login. cbn [UserLogin.email UserLogin.password]. split.
  - rewrite find_none_all; [reflexivity |].
    intros x Hx.
    destruct (String.eqb_spec (u_email x) (u_email identity))
      as [Hmail | _]; [| reflexivity].
    cbn [andb].
    assert (x = identity) as ->.
    { apply (NoDup_key_inj _ u_email (users conn));
        [apply Hok | assumption | assumption | assumption]. }
    apply String.eqb_neq. rewrite Hhash. unfold hash_password.
    intros Heq. apply Hp. apply Hfree. symmetry. exact Heq.
  - rewrite find_none_all; [reflexivity |].
    intros x Hx.
    destruct (String.eqb_spec (u_email x) unknown_email)
      as [Hmail | _]; [| reflexivity].
    exfalso. apply Hunknown. rewrite <- Hmail. apply in_map. exact Hx.
Qed.

(** ** The JSON text of [match_ids] decodes to the list it encodes *)

Lemma occurs_string_of_uint (c : ascii) (d : Decimal.uint) :
  is_digit c = false -> occurs c (NilEmpty.string_of_uint d) = false.
Proof.
  intros Hc. unfold is_digit in Hc. cbn [existsb] in Hc.
  repeat (apply orb_false_iff in Hc; destruct Hc as [? Hc]).
  induction d; cbn [NilEmpty.string_of_uint occurs];
    rewrite ?IHd, ?orb_false_r; try reflexivity;
    rewrite Ascii.eqb_sym; assumption.
Qed.

Lemma occurs_str_int (c : ascii) (z : Z) :
  is_digit c = false -> Ascii.eqb "-" c = false ->
  occurs c (str_int z) = false.
Proof.
  intros Hc Hminus. unfold str_int.
  assert (Hu : forall d, occurs c (NilZero.string_of_uint d) = false).
  { intros d. destruct d; try apply occurs_string_of_uint; try assumption.
    cbn [NilZero.string_of_uint occurs].
    unfold is_digit in Hc. cbn [existsb] in Hc.
    apply orb_false_iff in Hc. destruct Hc as [H0 _].
    rewrite Ascii.eqb_sym, H0. reflexivity. }
  destruct (Z.to_int z) as [d | d]; cbn [NilZero.string_of_int occurs].
  - apply Hu.
  - rewrite Hminus, Hu. reflexivity.
Qed.

Lemma str_int_nonempty (z : Z) : str_int z <> "".
Proof.
  unfold str_int. destruct z as [| p | p]; cbn; try discriminate.
  - pose proof (DecimalPos.Unsigned.to_uint_nonnil p) as Hnil.
    destruct (Pos.to_uint p); try congruence; cbn; discriminate.
Qed.

Lemma lstrip_no_blank (s : string) : occurs " " s = false -> lstrip s = s.
Proof.
  destruct s as [| a s]; cbn [occurs lstrip]; intros H.
  - reflexivity.
  - apply orb_false_iff in H. destruct H as [-> _]. reflexivity.
Qed.

Lemma parse_int_str_int (z : Z) : parse_int (str_int z) = Some z.
Proof.
  unfold parse_int. rewrite lstrip_no_blank by (apply occurs_str_int; reflexivity).
  unfold str_int. rewrite NilZero.isi.
  - cbn [option_map]. rewrite DecimalZ.of_to. reflexivity.
  - destruct z; cbn; try discriminate.
    intros [= H]. exact (DecimalPos.Unsigned.to_uint_nonnil _ H).
  - destruct z; cbn; try discriminate.
    intros [= H]. exact (DecimalPos.Unsigned.to_uint_nonnil _ H).
Qed.

Lemma parse_int_blank_str_int (z : Z) :
  parse_int (String " " (str_int z)) = Some z.
Proof.
  unfold parse_int. cbn [lstrip].
  replace (Ascii.eqb " " " ") with true by reflexivity.
  apply parse_int_str_int.
Qed.

Lemma split_on_no_sep (c : ascii) (p : string) :
  occurs c p = false -> split_on c p = [p].
Proof.
  induction p as [| a p IH]; cbn [occurs split_on]; intros H.
  - reflexivity.
  - apply orb_false_iff in H. destruct H as [Ha Hp].
    rewrite Ha, (IH Hp). reflexivity.
Qed.

Lemma split_on_piece (c : ascii) (p rest : string) :
  occurs c p = false ->
  split_on c (p ++ String c rest) = p :: split_on c rest.
Proof.
  induction p as [| a p IH]; cbn [occurs split_on append]; intros H.
  - rewrite Ascii.eqb_refl. reflexivity.
  - apply orb_false_iff in H. destruct H as [Ha Hp].
    rewrite Ha, (IH Hp). reflexivity.
Qed.

Lemma split_on_join (p : string) (ps : list string) :
  Forall (fun x => occurs "," x = false) (p :: ps) ->
  split_on "," (join ", " (p :: ps)) = p :: map (String " ") ps.
Proof.
  revert p. induction ps as [| q ps IH]; intros p Hall.
  - cbn [join map]. apply split_on_no_sep.
    inversion Hall; assumption.
  - inversion Hall as [| ? ? Hp Hrest]; subst.
    change (join ", " (p :: q :: ps))
      with (p ++ String "," (String " " (join ", " (q :: ps)))).
    rewrite split_on_piece by exact Hp.
    cbn [split_on map].
    replace (Ascii.eqb " " ",") with false by reflexivity.
    rewrite (IH q Hrest). reflexivity.
Qed.

Lemma drop_last_append (c : ascii) (s : string) :
  drop_last c (s ++ String c EmptyString) = Some s.
Proof.
  induction s as [| a s IH].
  - cbn. rewrite Ascii.eqb_refl. reflexivity.
  - cbn [append drop_last].
    destruct (s ++ String c EmptyString) eqn:Happ.
    + destruct s; discriminate.
    + rewrite IH. reflexivity.
Qed.

Lemma traverse_blank_str_int (l : list Z) :
  traverse parse_int (map (String " ") (map str_int l)) = Some l.
Proof.
  induction l as [| z l IH]; cbn [map traverse].
  - reflexivity.
  - rewrite parse_int_blank_str_int, IH. reflexivity.
Qed.

Theorem json_loads_dumps (match_ids : list Z) :
  json_loads (json_dumps match_ids) = Some match_ids.
Proof.
  unfold json_dumps.
  change ("[" ++ join ", " (map str_int match_ids) ++ "]")
    with (String "[" (join ", " (map str_int match_ids) ++ "]")).
  cbn [json_loads]. rewrite drop_last_append.
  destruct match_ids as [| z l]; [reflexivity |].
  cbn [map].
  assert (Hbody : join ", " (str_int z :: map str_int l) <> "").
  { destruct (map str_int l); cbn [join].
    - apply str_int_nonempty.
    - pose proof (str_int_nonempty z).
      destruct (str_int z); [congruence | discriminate]. }
  destruct (join ", " (str_int z :: map str_int l)) eqn:Hjoin;
    [congruence |].
  rewrite <- Hjoin. rewrite split_on_join.
  - cbn [traverse]. rewrite parse_int_str_int, traverse_blank_str_int.
    reflexivity.
  - change (str_int z :: map str_int l) with (map str_int (z :: l)).
    apply Forall_map. apply Forall_forall. intros x _.
    apply occurs_str_int; reflexivity.
Qed.

(** ** Schedules *)

Lemma entries_of_decodable (rows : list schedule_row) :
  Forall (fun r => exists ids, s_match_ids r = json_dumps ids) rows ->
  exists es, entries_of rows = Return es /\ Forall2 entry_of rows es.
Proof.
  induction rows as [| r rows IH]; intros Hall.
  - exists []. split; [reflexivity | constructor].
  - inversion Hall as [| ? ? [ids Hids] Hrest]; subst.
    destruct (IH Hrest) as (es & Hes & Hrel).
    cbn [entries_of]. rewrite Hids, json_loads_dumps, Hes.
    eexists. split; [reflexivity |].
    constructor; [| exact Hrel].
    unfold entry_of. cbn. rewrite Hids, json_loads_dumps. auto.
Qed.

Lemma Forall2_In_l {A B : Type} (R : A -> B -> Prop) (l : list A)
    (l' : list B) (a : A) :
  Forall2 R l l' -> In a l -> exists b, In b l' /\ R a b.
Proof.
  induction 1 as [| x y l l' Hxy _ IH]; cbn [In]; intros Hin.
  - contradiction.
  - destruct Hin as [<- | Hin].
    + exists y. auto.
    + destruct (IH Hin) as (b & Hb & Hab). exists b. auto.
Qed.

Section ScheduleFacts.
Context {L : Libs}.

(** With a token that verifies, to whatever subject, the listing for
    [user_id] is made of the rows whose owner column is [user_id]. *)
Lemma get_user_schedules_rows (user_id subject : string) (t : token)
    (now : Z) (conn : db) :
  match_ids_ok conn ->
  verify_token t now = Return subject ->
  exists es,
    get_user_schedules user_id t now conn
    = (conn, Return {| Listing.user_id := user_id;
                       Listing.schedules := es |})
    /\ Forall2 entry_of (schedules_of user_id conn) es.
Proof.
  intros Hok Hver. unfold get_user_schedules, and_then. rewrite Hver.
  destruct (entries_of_decodable (schedules_of user_id conn))
    as (es & Hes & Hrel).
  { unfold schedules_of. unfold match_ids_ok in Hok.
    rewrite Forall_forall in *. intros x Hx.
    apply filter_In in Hx. apply Hok. tauto. }
  unfold schedules_of in Hes. rewrite Hes.
  exists es. split; [reflexivity | exact Hrel].
Qed.

Lemma create_schedule_fresh (schedule : Schedule.t) (t : token) (now : Z)
    (conn : db) (owner : string) :
  verify_token t now = Return owner ->
  ~ In (md5_hexdigest (owner ++ str_datetime now))
       (map s_schedule_id (schedules conn)) ->
  create_schedule schedule t now conn
  = ({| users := users conn;
        schedules := schedules conn ++ [created_row schedule owner now];
        push_tokens := push_tokens conn |},
     Return {| Created.schedule_id :=
                 md5_hexdigest (owner ++ str_datetime now);
               Created.schedule_name := Schedule.schedule_name schedule;
               Created.match_ids := Schedule.match_ids schedule |}).
Proof.
  intros Hver Hfresh. unfold create_schedule, and_then. rewrite Hver.
  fold (created_row schedule owner now).
  rewrite insert_schedule_fresh by exact Hfresh. reflexivity.
Qed.

Lemma delete_schedule_no_row (schedule_id : string) (t : token) (now : Z)
    (conn : db) (subject : string) :
  verify_token t now = Return subject ->
  (forall x, In x (schedules conn) ->
             String.eqb (s_schedule_id x) schedule_id
             && String.eqb (s_user_id x) subject = false) ->
  delete_schedule schedule_id t now conn
  = (conn, HTTPException 404 "Schedule not found").
Proof.
  intros Hver Hnone. unfold delete_schedule, and_then. rewrite Hver.
  unfold delete_schedule_rows.
  rewrite (filter_none _ _ Hnone). rewrite filter_all.
  - cbn [List.length Nat.eqb]. destruct conn; reflexivity.
  - intros x Hx. rewrite (Hnone x Hx). reflexivity.
Qed.

End ScheduleFacts.

(** C1. For a schedule of the store owned by [A] and a token that verifies
    to another subject [B], [delete_schedule] with the id of that schedule
    ends with 404 "Schedule not found" (not a 403) and leaves the store as
    it was: the row is still there, and a listing for [A] still shows
    it. *)
Theorem delete_other_owner_not_found {L : Libs} (conn : db)
    (row : schedule_row) (tokenB : token) (B : string) (now : Z) :
  db_ok conn ->
  In row (schedules conn) ->
  verify_token tokenB now = Return B ->
  B <> s_user_id row ->
  exists conn',
    delete_schedule (s_schedule_id row) tokenB now conn
    = (conn', HTTPException 404 "Schedule not found")
    /\ conn' = conn
    /\ In row (schedules conn')
    /\ (match_ids_ok conn ->
        forall t now' subject,
          verify_token t now' = Return subject ->
          exists es e,
            get_user_schedules (s_user_id row) t now' conn'
            = (conn', Return {| Listing.user_id := s_user_id row;
                                Listing.schedules := es |})
            /\ In e es /\ entry_of row e).
Proof.
  intros Hok Hin Hver Hother. exists conn.
  split; [| split; [reflexivity | split; [exact Hin |]]].
  - apply (delete_schedule_no_row _ _ _ _ B Hver).
    intros x Hx.
    destruct (String.eqb_spec (s_schedule_id x) (s_schedule_id row))
      as [Hid | _]; [| reflexivity].
    cbn [andb].
    assert (x = row) as ->.
    { apply (NoDup_key_inj _ s_schedule_id (schedules conn));
        [apply Hok | assumption | assumption | assumption]. }
    apply String.eqb_neq. congruence.
  - intros Hjson t now' subject Hver'.
    destruct (get_user_schedules_rows (s_user_id row) subject t now' conn
                Hjson Hver') as (es & Hget & Hrel).
    assert (Hrow : In row (schedules_of (s_user_id row) conn)).
    { unfold schedules_of. apply filter_In. split; [exact Hin |].
      apply String.eqb_refl. }
    destruct (Forall2_In_l _ _ _ _ Hrel Hrow) as (e & He & Hshow).
    exists es, e. auto.
Qed.

(** C5. When [create_schedule] is called with a token that verifies to
    [owner] and the id it derives is not taken, it succeeds and echoes the
    match references unmodified, and a listing for [owner] right after it
    has an entry with the new id whose [match_ids] is exactly the list
    given: same order, duplicates kept, nothing looked up in the match
    catalog. *)
Theorem create_then_list_roundtrip {L : Libs} (conn : db)
    (schedule : Schedule.t) (t t' : token) (now now' : Z)
    (owner subject : string) :
  match_ids_ok conn ->
  verify_token t now = Return owner ->
  ~ In (md5_hexdigest (owner ++ str_datetime now))
       (map s_schedule_id (schedules conn)) ->
  verify_token t' now' = Return subject ->
  exists conn' created es e,
    create_schedule schedule t now conn = (conn', Return created)
    /\ Created.match_ids created = Schedule.match_ids schedule
    /\ get_user_schedules owner t' now' conn'
       = (conn', Return {| Listing.user_id := owner;
                           Listing.schedules := es |})
    /\ In e es
    /\ Entry.schedule_id e = Created.schedule_id created
    /\ Entry.match_ids e = Schedule.match_ids schedule.
Proof.
  intros Hjson Hver Hfresh Hver'.
  pose proof (create_schedule_fresh schedule t now conn owner Hver Hfresh)
    as Hcreate.
  set (conn' := {| users := users conn;
                   schedules := (schedules conn
                                 ++ [created_row schedule owner now])%list;
                   push_tokens := push_tokens conn |}) in *.
  assert (Hjson' : match_ids_ok conn').
  { unfold match_ids_ok. cbn [conn' schedules]. apply Forall_app.
    split; [exact Hjson |]. constructor; [| constructor].
    exists (Schedule.match_ids schedule). reflexivity. }
  destruct (get_user_schedules_rows owner subject t' now' conn' Hjson' Hver')
    as (es & Hget & Hrel).
  assert (Hrow : In (created_row schedule owner now)
                    (schedules_of owner conn')).
  { unfold schedules_of. apply filter_In. cbn [conn' schedules]. split.
    - apply in_app_iff. right. cbn. auto.
    - cbn [created_row s_user_id]. apply String.eqb_refl. }
  destruct (Forall2_In_l _ _ _ _ Hrel Hrow) as (e & He & Hshow).
  destruct Hshow as (Hid & _ & Hids & _).
  cbn [created_row s_match_ids s_schedule_id] in Hid, Hids.
  rewrite json_loads_dumps in Hids. injection Hids as Hids.
  eexists conn', _, es, e.
  split; [exact Hcreate |]. cbn [Created.match_ids Created.schedule_id].
  repeat split; auto.
Qed.

(** C10. The listing is not restricted to the caller's own schedules: for
    every user id [U] of the path and every token that verifies, to
    whatever subject, [get_user_schedules] answers with [U] and one entry
    per row of the table whose owner is [U], in table order; the subject
    of the token plays no part in the answer. *)
Theorem listing_not_ownership_restricted {L : Libs} (conn : db)
    (U subject : string) (t : token) (now : Z) :
  match_ids_ok conn ->
  verify_token t now = Return subject ->
  (exists es,
     get_user_schedules U t now conn
     = (conn, Return {| Listing.user_id := U; Listing.schedules := es |})
     /\ Forall2 entry_of (schedules_of U conn) es)
  /\ (forall t2 now2 subject2,
        verify_token t2 now2 = Return subject2 ->
        get_user_schedules U t2 now2 conn = get_user_schedules U t now conn).
Proof.
  intros Hjson Hver. split.
  - exact (get_user_schedules_rows U subject t now conn Hjson Hver).
  - intros t2 now2 subject2 Hver2.
    unfold get_user_schedules, and_then. rewrite Hver, Hver2. reflexivity.
Qed.

(** ** Push tokens *)

Lemma filter_key_after_replace {A : Type} (key : A -> string) (k : string)
    (l : list A) :
  filter (fun x => String.eqb (key x) k)
         (filter (fun x => negb (String.eqb (key x) k)) l) = [].
Proof.
  apply filter_none. intros x Hx. apply filter_In in Hx.
  destruct Hx as [_ Hneg]. apply negb_true_iff. exact Hneg.
Qed.

(** C6. From a store that meets the constraints of the schema, after any
    sequence of requests table [push_tokens] holds at most one row per
    identity; and after two registrations by the same identity the only
    row of that identity carries the device token of the second one. *)
Theorem push_token_upsert {L : Libs} :
  (forall conn rs user_id,
     db_ok conn ->
     (List.length (push_rows_of user_id (run rs conn)) <= 1)%nat)
  /\ (forall conn user_id first second t1 t2 now1 now2,
        verify_token t1 now1 = Return user_id ->
        verify_token t2 now2 = Return user_id ->
        exists conn1 conn2 m1 m2,
          register_push_token first t1 now1 conn = (conn1, Return m1)
          /\ register_push_token second t2 now2 conn1 = (conn2, Return m2)
          /\ push_rows_of user_id conn2
             = [ {| p_user_id := user_id;
                    p_device_token := PushToken.device_token second;
                    p_updated_at := now2 |} ]).
Proof.
  split.
  - intros conn rs user_id Hok.
    apply (filter_has_key_unique _ p_user_id).
    apply (run_db_ok rs conn Hok).
  - intros conn user_id first second t1 t2 now1 now2 Hv1 Hv2.
    unfold register_push_token, and_then. rewrite Hv1, Hv2.
    do 4 eexists. split; [reflexivity |]. split; [reflexivity |].
    unfold push_rows_of, insert_or_replace_push.
    cbn [push_tokens p_user_id].
    rewrite filter_app, filter_key_after_replace.
    cbn [filter app p_user_id]. rewrite String.eqb_refl. reflexivity.
Qed.

(** ** Routing and the shape of the registration exchange *)

(** C8, as the specification words it: no route answers
    [POST /auth/register]. *)
Lemma register_route_without_prefix :
  dispatch POST "/auth/register" = None
  /\ dispatch POST "/auth/register" <> Some ep_register.
Proof. split; [reflexivity | discriminate]. Qed.

(** C8, amended. Registration is served at [POST /api/auth/register]; its
    body is accepted with [email] and [password], with or without
    [full_name]; and a successful registration answers with exactly the
    members [access_token], [token_type] and [user_id], where [token_type]
    is ["bearer"] and [access_token] is a token for [user_id]. *)
Theorem register_endpoint_shape {L : Libs} :
  dispatch POST "/api/auth/register" = Some ep_register
  /\ (forall e p,
        UserRegister_of_body [("email", e); ("password", p)]
        = Some {| UserRegister.email := e;
                  UserRegister.password := p;
                  UserRegister.full_name := None |})
  /\ (forall e p n,
        UserRegister_of_body
          [("email", e); ("password", p); ("full_name", n)]
        = Some {| UserRegister.email := e;
                  UserRegister.password := p;
                  UserRegister.full_name := Some n |})
  /\ (forall user now conn conn' response,
        register user now conn = (conn', Return response) ->
        map fst (Token_json response)
        = ["access_token"; "token_type"; "user_id"]
        /\ member "token_type" (Token_json response) = Some "bearer"
        /\ member "user_id" (Token_json response)
           = Some (Token.user_id response)
        /\ Token.access_token response
           = create_access_token (Token.user_id response) now).
Proof.
  split; [reflexivity |]. split; [reflexivity |]. split; [reflexivity |].
  intros user now conn conn' response Hreg.
  destruct (register_cases user now conn)
    as [[_ H] | [[_ H] | (_ & c & _ & H)]];
    rewrite H in Hreg; try discriminate.
  injection Hreg as _ <-. repeat split; reflexivity.
Qed.

(** ** The provider services *)

Section ProviderFacts.
Import Providers.
Local Open Scope Q_scope.

Variable requests_get : string -> list (string * json) -> reply.
Variable utcnow_isoformat : string.
Variable format_float : Q -> string.
Variable int_of_str : string -> option Z.





















End ProviderFacts.

(** The literals are the floats nearest to their decimal values. *)
Example float_literals :
  Providers.float_1_0 = Providers.quotient 1 1
  /\ Providers.float_1_1 = Providers.quotient 11 10
  /\ Providers.float_1_3 = Providers.quotient 13 10
  /\ Providers.float_100 = Providers.float_of_Z 100.
Proof. repeat split; vm_compute; reflexivity. Qed.

(** A ratio a little below 1.1 that is 1.1 as a float: the level is
    "moderate". *)
Example traffic_level_rounded :
  Providers.traffic_ratio (Providers.JNum 109999999999999999)
                          (Providers.JNum 100000000000000000)
  = Providers.Ok Providers.float_1_1
  /\ Providers.traffic_level Providers.float_1_1 = "moderate".
Proof. split; vm_compute; reflexivity. Qed.

(** A quotient beyond the largest float raises, which [get_travel_time]
    answers with the mock payload. *)
Example traffic_ratio_overflow :
  Providers.traffic_ratio (Providers.JNum (inject_Z (10 ^ 400)))
                          (Providers.JNum 1200)
  = Providers.Raise Providers.OverflowError.
Proof. vm_compute. reflexivity. Qed.


Section Fallback.
Import Providers.

Variable requests_get : string -> list (string * json) -> reply.
Variable utcnow_isoformat : string.
Variable format_float : Q -> string.
Variable int_of_str : string -> option Z.

Lemma get_travel_time_total (self : TrafficService)
    (origin_lat origin_lon dest_lat dest_lon : Q) (mode : string) :
  exists payload,
    get_travel_time requests_get utcnow_isoformat format_float self
      origin_lat origin_lon dest_lat dest_lon mode = Ok payload.
Proof.
  unfold get_travel_time.
  destruct (String.eqb (t_api_key self) ""); [eexists; reflexivity |].
  destruct (travel_time_body _ _ _ _ _ _ _ _ _);
    cbn [try_except]; eexists; reflexivity.
Qed.

Lemma get_current_weather_total (self : WeatherService) (lat lon : Q) :
  exists payload,
    get_current_weather requests_get utcnow_isoformat int_of_str self
      lat lon = Ok payload.
Proof.
  unfold get_current_weather.
  destruct (String.eqb (w_api_key self) ""); [eexists; reflexivity |].
  destruct (current_weather_body _ _ _ _ _ _);
    cbn [try_except]; eexists; reflexivity.
Qed.

Lemma get_travel_time_failed (self : TrafficService)
    (origin_lat origin_lon dest_lat dest_lon : Q) (mode : string)
    (r : reply) :
  (forall url params, requests_get url params = r) ->
  provider_failed r = true ->
  get_travel_time requests_get utcnow_isoformat format_float self
    origin_lat origin_lon dest_lat dest_lon mode
  = Ok (_mock_traffic_data utcnow_isoformat).
Proof.
  intros Hreply Hfailed. unfold get_travel_time.
  destruct (String.eqb (t_api_key self) ""); [reflexivity |].
  unfold travel_time_body. rewrite Hreply.
  destruct r as [e | status_code body]; [reflexivity |].
  unfold raise_for_status. cbn [provider_failed] in Hfailed.
  destruct ((400 <=? status_code) && (status_code <? 600))%Z;
    [reflexivity |].
  destruct body; [discriminate | reflexivity].
Qed.

Lemma get_current_weather_failed (self : WeatherService) (lat lon : Q)
    (r : reply) :
  (forall url params, requests_get url params = r) ->
  provider_failed r = true ->
  get_current_weather requests_get utcnow_isoformat int_of_str self
    lat lon
  = Ok (_mock_weather_data utcnow_isoformat).
Proof.
  intros Hreply Hfailed. unfold get_current_weather.
  destruct (String.eqb (w_api_key self) ""); [reflexivity |].
  unfold current_weather_body. rewrite Hreply.
  destruct r as [e | status_code body]; [reflexivity |].
  unfold raise_for_status. cbn [provider_failed] in Hfailed.
  destruct ((400 <=? status_code) && (status_code <? 600))%Z;
    [reflexivity |].
  destruct body; [discriminate | reflexivity].
Qed.

(** An answer of the distance matrix provider whose own status is not
    ["OK"] is an error too. *)
Lemma get_travel_time_status_not_ok (self : TrafficService)
    (origin_lat origin_lon dest_lat dest_lon : Q) (mode : string)
    (status_code : Z) (data status : json) :
  (forall url params,
     requests_get url params = Reply status_code (Some data)) ->
  getitem data "status" = Ok status ->
  eq_str status "OK" = false ->
  get_travel_time requests_get utcnow_isoformat format_float self
    origin_lat origin_lon dest_lat dest_lon mode
  = Ok (_mock_traffic_data utcnow_isoformat).
Proof.
  intros Hreply Hstatus Hnot. unfold get_travel_time.
  destruct (String.eqb (t_api_key self) ""); [reflexivity |].
  unfold travel_time_body. rewrite Hreply.
  destruct (raise_for_status status_code) as [[] | e];
    [| reflexivity].
  cbn [bind response_json]. rewrite Hstatus. cbn [bind].
  rewrite Hnot. reflexivity.
Qed.

(** The mock payloads are constants but for the [updated_at] stamp. *)
Lemma mock_payloads_constant (stamp stamp' key : string) :
  key <> "updated_at" ->
  getitem (_mock_traffic_data stamp) key
  = getitem (_mock_traffic_data stamp') key
  /\ getitem (_mock_weather_data stamp) key
     = getitem (_mock_weather_data stamp') key.
Proof.
  intros Hkey. unfold _mock_traffic_data, _mock_weather_data, getitem.
  cbn [lookup].
  assert (Hno : String.eqb "updated_at" key = false).
  { apply String.eqb_neq. congruence. }
  rewrite Hno. split; reflexivity.
Qed.

End Fallback.

(** C7. Whatever the coordinates, the API key, the network and the clock,
    [get_travel_time] and [get_current_weather] return a value and raise
    nothing; and when the key is empty, or the request raises, or the
    reply has an error status or no JSON body (for the traffic provider,
    also when the provider's own status is not "OK"), the value is the
    mock payload, whose members other than the [updated_at] stamp are the
    same at every call. *)
Theorem providers_absorb_failures
    (requests_get : string -> list (string * Providers.json)
                    -> Providers.reply)
    (utcnow_isoformat : string) (format_float : Q -> string)
    (int_of_str : string -> option Z) :
  (forall self origin_lat origin_lon dest_lat dest_lon mode,
     exists payload,
       Providers.get_travel_time requests_get utcnow_isoformat format_float
         self origin_lat origin_lon dest_lat dest_lon mode
       = Providers.Ok payload)
  /\ (forall self lat lon,
        exists payload,
          Providers.get_current_weather requests_get utcnow_isoformat
            int_of_str self lat lon = Providers.Ok payload)
  /\ (forall self origin_lat origin_lon dest_lat dest_lon mode,
        Providers.t_api_key self = ""
        \/ (exists r, (forall url params, requests_get url params = r)
                      /\ provider_failed r = true)
        \/ (exists status_code data status,
              (forall url params,
                 requests_get url params
                 = Providers.Reply status_code (Some data))
              /\ Providers.getitem data "status" = Providers.Ok status
              /\ Providers.eq_str status "OK" = false) ->
        Providers.get_travel_time requests_get utcnow_isoformat format_float
          self origin_lat origin_lon dest_lat dest_lon mode
        = Providers.Ok (Providers._mock_traffic_data utcnow_isoformat))
  /\ (forall self lat lon,
        Providers.w_api_key self = ""
        \/ (exists r, (forall url params, requests_get url params = r)
                      /\ provider_failed r = true) ->
        Providers.get_current_weather requests_get utcnow_isoformat
          int_of_str self lat lon
        = Providers.Ok (Providers._mock_weather_data utcnow_isoformat))
  /\ (forall stamp key,
        key <> "updated_at" ->
        Providers.getitem (Providers._mock_traffic_data utcnow_isoformat) key
        = Providers.getitem (Providers._mock_traffic_data stamp) key
        /\ Providers.getitem (Providers._mock_weather_data utcnow_isoformat)
                             key
           = Providers.getitem (Providers._mock_weather_data stamp) key).
Proof.
  split; [intros; apply get_travel_time_total |].
  split; [intros; apply get_current_weather_total |].
  split; [| split; [| intros; apply mock_payloads_constant; assumption]].
  - intros self origin_lat origin_lon dest_lat dest_lon mode
           [Hkey | [(r & Hreply & Hfailed)
                   | (status_code & data & status & Hreply & Hst & Hnot)]].
    + unfold Providers.get_travel_time. rewrite Hkey. reflexivity.
    + apply get_travel_time_failed with (r := r); assumption.
    + apply get_travel_time_status_not_ok
        with (status_code := status_code) (data := data) (status := status);
        assumption.
  - intros self lat lon [Hkey | (r & Hreply & Hfailed)].
    + unfold Providers.get_current_weather. rewrite Hkey. reflexivity.
    + apply get_current_weather_failed with (r := r); assumption.
Qed.

Example store_rows :
  users Demo.store
  = [ Demo.alice_row;
      {| u_user_id := Demo.bob_id;
         u_email := "bob@example.com";
         u_password_hash := "sha256(hunter2)";
         u_full_name := Some "Bob";
         u_created_at := 1000 |} ]
  /\ schedules Demo.store = [ Demo.plan_row ]
  /\ push_tokens Demo.store = [].
Proof. repeat split; reflexivity. Qed.

Lemma example_store_ok : db_ok Demo.store /\ match_ids_ok Demo.store.
Proof. apply (reachable_ok (L := symbolic_libs)). Qed.

(** Without the environment variables both services are unconfigured. *)
Example unconfigured_services :
  Providers.t_api_key (Providers.TrafficService_init (fun _ => None)) = ""
  /\ Providers.w_api_key (Providers.WeatherService_init (fun _ => None)) = "".
Proof. split; reflexivity. Qed.

Lemma token_lifecycle_witness :
  verify_token (L := symbolic_libs) Demo.alice_token 1001
  = Return Demo.alice_id
  /\ verify_token (L := symbolic_libs) Demo.alice_token 605801
     = HTTPException 401 "Token expired"
  /\ verify_token (L := Demo.hmac_demo)
       (jwt_encode (L := Demo.hmac_demo)
          {| sub := Some Demo.alice_id; exp := None |}
          "another-key" "HS256") 1001
     <> Return Demo.alice_id.
Proof.
  destruct (token_lifecycle (L := symbolic_libs) Demo.alice_id 1000)
    as (Hfresh & Hexpired & Hforeign).
  split; [apply Hfresh; lia |].
  split; [apply Hexpired; lia |].
  apply Hforeign.
  - vm_compute. lia.
  - intros Heq. vm_compute in Heq. discriminate Heq.
  - intros Heq. vm_compute in Heq. discriminate Heq.
Defined.

Lemma register_duplicate_email_witness :
  let conn1 := fst (register (L := symbolic_libs) Demo.alice 1000 empty_db) in
  let again :=
    {| UserRegister.email := "alice@example.com";
       UserRegister.password := "another";
       UserRegister.full_name := Some "Alice" |} in
  let between := [ (Register Demo.bob, 1500);
                   (CreateSchedule Demo.my_plan Demo.alice_token, 1600) ] in
  register (L := symbolic_libs) again 2000
           (run (L := symbolic_libs) between conn1)
  = (run (L := symbolic_libs) between conn1,
     HTTPException 400 "Email already registered")
  /\ List.length (users_with_email "alice@example.com"
                    (run (L := symbolic_libs) between conn1)) = 1%nat.
Proof.
  cbv zeta.
  apply (register_duplicate_email (L := symbolic_libs) empty_db
           (fst (register (L := symbolic_libs) Demo.alice 1000 empty_db))
           Demo.alice
           {| UserRegister.email := "alice@example.com";
              UserRegister.password := "another";
              UserRegister.full_name := Some "Alice" |}
           1000 2000
           {| Token.access_token := Demo.alice_token;
              Token.token_type := "bearer";
              Token.user_id := Demo.alice_id |}).
  - reflexivity.
  - reflexivity.
Defined.

Lemma login_failures_indistinguishable_witness :
  login (L := symbolic_libs)
        {| UserLogin.email := "alice@example.com";
           UserLogin.password := "wrong" |} 3000 Demo.store
  = (Demo.store, HTTPException 401 "Invalid email or password")
  /\ login (L := symbolic_libs)
           {| UserLogin.email := "carol@example.com";
              UserLogin.password := "pw123" |} 3001 Demo.store
     = (Demo.store, HTTPException 401 "Invalid email or password").
Proof.
  apply (login_failures_indistinguishable (L := symbolic_libs) Demo.store
           Demo.alice_row "pw123" "wrong" "carol@example.com" "pw123"
           3000 3001).
  - apply example_store_ok.
  - left. reflexivity.
  - reflexivity.
  - discriminate.
  - intros Heq. vm_compute in Heq. discriminate Heq.
  - vm_compute. intros [H | [H | []]]; discriminate H.
Defined.

Lemma delete_other_owner_not_found_witness :
  exists conn',
    delete_schedule (L := symbolic_libs) (s_schedule_id Demo.plan_row)
                    Demo.bob_token 3000 Demo.store
    = (conn', HTTPException 404 "Schedule not found")
    /\ conn' = Demo.store
    /\ In Demo.plan_row (schedules conn')
    /\ (match_ids_ok Demo.store ->
        forall t now' subject,
          verify_token (L := symbolic_libs) t now' = Return subject ->
          exists es e,
            get_user_schedules (L := symbolic_libs)
              (s_user_id Demo.plan_row) t now' conn'
            = (conn', Return {| Listing.user_id := s_user_id Demo.plan_row;
                                Listing.schedules := es |})
            /\ In e es /\ entry_of Demo.plan_row e).
Proof.
  apply (delete_other_owner_not_found (L := symbolic_libs) Demo.store
           Demo.plan_row Demo.bob_token Demo.bob_id 3000).
  - apply example_store_ok.
  - left. reflexivity.
  - reflexivity.
  - discriminate.
Defined.

Lemma create_then_list_roundtrip_witness :
  exists conn' created es e,
    create_schedule (L := symbolic_libs) Demo.my_plan Demo.alice_token 4000
                    Demo.store
    = (conn', Return created)
    /\ Created.match_ids created = [101; 102; 102; 103]
    /\ get_user_schedules (L := symbolic_libs) Demo.alice_id Demo.bob_token
                          4001 conn'
       = (conn', Return {| Listing.user_id := Demo.alice_id;
                           Listing.schedules := es |})
    /\ In e es
    /\ Entry.schedule_id e = Created.schedule_id created
    /\ Entry.match_ids e = [101; 102; 102; 103].
Proof.
  apply (create_then_list_roundtrip (L := symbolic_libs) Demo.store
           Demo.my_plan Demo.alice_token Demo.bob_token 4000 4001
           Demo.alice_id Demo.bob_id).
  - apply example_store_ok.
  - reflexivity.
  - vm_compute. intros [H | []]. discriminate H.
  - reflexivity.
Defined.

Lemma listing_not_ownership_restricted_witness :
  (exists es,
     get_user_schedules (L := symbolic_libs) Demo.alice_id Demo.bob_token
                        3000 Demo.store
     = (Demo.store, Return {| Listing.user_id := Demo.alice_id;
                              Listing.schedules := es |})
     /\ Forall2 entry_of (schedules_of Demo.alice_id Demo.store) es)
  /\ (forall t2 now2 subject2,
        verify_token (L := symbolic_libs) t2 now2 = Return subject2 ->
        get_user_schedules (L := symbolic_libs) Demo.alice_id t2 now2
                           Demo.store
        = get_user_schedules (L := symbolic_libs) Demo.alice_id
                             Demo.bob_token 3000 Demo.store).
Proof.
  apply (listing_not_ownership_restricted (L := symbolic_libs) Demo.store
           Demo.alice_id Demo.bob_id Demo.bob_token 3000).
  - apply example_store_ok.
  - reflexivity.
Defined.

Lemma push_token_upsert_witness :
  (List.length (push_rows_of Demo.alice_id
                  (run (L := symbolic_libs) Demo.two_devices Demo.store))
   <= 1)%nat
  /\ exists conn1 conn2 m1 m2,
       register_push_token (L := symbolic_libs)
         {| PushToken.device_token := "device-1" |} Demo.alice_token 3000
         Demo.store = (conn1, Return m1)
       /\ register_push_token (L := symbolic_libs)
            {| PushToken.device_token := "device-2" |} Demo.alice_token 3001
            conn1 = (conn2, Return m2)
       /\ push_rows_of Demo.alice_id conn2
          = [ {| p_user_id := Demo.alice_id;
                 p_device_token := "device-2";
                 p_updated_at := 3001 |} ].
Proof.
  destruct (push_token_upsert (L := symbolic_libs)) as [Hone Hlast].
  split.
  - apply Hone. apply example_store_ok.
  - apply (Hlast Demo.store Demo.alice_id
                 {| PushToken.device_token := "device-1" |}
                 {| PushToken.device_token := "device-2" |}
                 Demo.alice_token Demo.alice_token 3000 3001);
      reflexivity.
Defined.

Lemma register_endpoint_shape_witness :
  map fst (Token_json (L := symbolic_libs)
             {| Token.access_token := Demo.alice_token;
                Token.token_type := "bearer";
                Token.user_id := Demo.alice_id |})
  = ["access_token"; "token_type"; "user_id"]
  /\ member "token_type"
            (Token_json (L := symbolic_libs)
               {| Token.access_token := Demo.alice_token;
                  Token.token_type := "bearer";
                  Token.user_id := Demo.alice_id |})
     = Some "bearer".
Proof.
  destruct (register_endpoint_shape (L := symbolic_libs))
    as (_ & _ & _ & Hshape).
  destruct (Hshape Demo.alice 1000 empty_db
                   (fst (register (L := symbolic_libs) Demo.alice 1000
                                  empty_db))
                   {| Token.access_token := Demo.alice_token;
                      Token.token_type := "bearer";
                      Token.user_id := Demo.alice_id |} eq_refl)
    as (Hnames & Htype & _).
  split; assumption.
Defined.


Lemma providers_absorb_failures_witness :
  Providers.get_travel_time Demo.network_down "2026-06-11T18:00:00"
    (fun _ => "0.0") Demo.traffic 0 0 0 0 "driving"
  = Providers.Ok (Providers._mock_traffic_data "2026-06-11T18:00:00")
  /\ Providers.get_current_weather Demo.network_down "2026-06-11T18:00:00"
       (fun _ => None) Demo.weather 0 0
     = Providers.Ok (Providers._mock_weather_data "2026-06-11T18:00:00").
Proof.
  destruct (providers_absorb_failures Demo.network_down
              "2026-06-11T18:00:00" (fun _ => "0.0") (fun _ => None))
    as (_ & _ & Htraffic & Hweather & _).
  split.
  - apply Htraffic. right. left.
    exists (Providers.NoReply Providers.ConnectionError).
    split; reflexivity.
  - apply Hweather. right.
    exists (Providers.NoReply Providers.ConnectionError).
    split; reflexivity.
Defined.

(** * Further properties of the server *)

(** ** Tokens and authentication *)

(** X2. [verify_token] accepts a token as a user id exactly when the
    token decodes, its header algorithm is HS256, its signature is the one
    of its claim set under the process key, its [sub] claim is that id and
    its [exp] claim, when there is one, lies after the clock reading; a
    token without [exp] never expires.  It answers 401 "Token expired"
    exactly for the tokens of that algorithm and signature whose [exp]
    claim does not lie after the clock reading, with or without [sub].
    Every other token, one that does not decode, of another algorithm, of
    another signature or without [sub], ends the request with the
    [AttributeError] nothing catches: 401 "Invalid token" is never
    answered. *)
Theorem verify_token_accepts_iff {L : Libs} (t : token) (now : Z) :
  (forall user_id,
     verify_token t now = Return user_id
     <-> exists payload,
           t = JWS ALGORITHM payload (hs256 SECRET_KEY ALGORITHM payload)
           /\ sub payload = Some user_id
           /\ match exp payload with Some e => now < e | None => True end)
  /\ (verify_token t now = HTTPException 401 "Token expired"
      <-> exists payload e,
            t = JWS ALGORITHM payload (hs256 SECRET_KEY ALGORITHM payload)
            /\ exp payload = Some e
            /\ e <= now)
  /\ ((exists user_id, verify_token t now = Return user_id)
      \/ verify_token t now = HTTPException 401 "Token expired"
      \/ verify_token t now = Uncaught AttributeError).
Proof.
  split; [| split].
  - intros user_id. split; [apply verify_token_Return |].
    intros (payload & -> & Hsub & Hexp).
    unfold verify_token.
    change (JWS ALGORITHM payload (hs256 SECRET_KEY ALGORITHM payload))
      with (jwt_encode payload SECRET_KEY ALGORITHM).
    rewrite jwt_decode_own_key.
    destruct (exp payload) as [e |].
    + destruct (Z.leb_spec e now); [lia |]. rewrite Hsub. reflexivity.
    + rewrite Hsub. reflexivity.
  - split; [apply verify_token_Expired |].
    intros (payload & e & -> & Hexp & Hle).
    unfold verify_token.
    change (JWS ALGORITHM payload (hs256 SECRET_KEY ALGORITHM payload))
      with (jwt_encode payload SECRET_KEY ALGORITHM).
    rewrite jwt_decode_own_key, Hexp.
    destruct (Z.leb_spec e now); [reflexivity | lia].
  - apply verify_token_outcomes.
Qed.

(** X3. A request whose token does not verify changes nothing: each of the
    four handlers that take a token ends as [verify_token] does, all four
    with 401 "Token expired" or all four with the uncaught
    [AttributeError], and leaves the store as it was, whatever else the
    request says. *)
Theorem rejected_token_no_effect {L : Libs} (t : token) (now : Z)
    (conn : db) :
  (forall user_id, verify_token t now <> Return user_id) ->
  (verify_token t now = HTTPException 401 "Token expired"
   /\ (forall schedule,
         create_schedule schedule t now conn
         = (conn, HTTPException 401 "Token expired"))
   /\ (forall user_id,
         get_user_schedules user_id t now conn
         = (conn, HTTPException 401 "Token expired"))
   /\ (forall schedule_id,
         delete_schedule schedule_id t now conn
         = (conn, HTTPException 401 "Token expired"))
   /\ (forall push_token,
         register_push_token push_token t now conn
         = (conn, HTTPException 401 "Token expired")))
  \/ (verify_token t now = Uncaught AttributeError
      /\ (forall schedule,
            create_schedule schedule t now conn
            = (conn, Uncaught AttributeError))
      /\ (forall user_id,
            get_user_schedules user_id t now conn
            = (conn, Uncaught AttributeError))
      /\ (forall schedule_id,
            delete_schedule schedule_id t now conn
            = (conn, Uncaught AttributeError))
      /\ (forall push_token,
            register_push_token push_token t now conn
            = (conn, Uncaught AttributeError))).
Proof.
  intros Hno.
  unfold create_schedule, get_user_schedules, delete_schedule,
    register_push_token, and_then.
  destruct (verify_token_outcomes t now) as [[user_id Hu] | [Hd | Hd]].
  - exfalso. exact (Hno user_id Hu).
  - left. rewrite Hd. repeat split; reflexivity.
  - right. rewrite Hd. repeat split; reflexivity.
Qed.

Lemma rejected_token_no_effect_witness :
  (forall user_id,
     verify_token (L := symbolic_libs) (Garbage "not.a.token") 3000
     <> Return user_id)
  /\ delete_schedule (L := symbolic_libs) (s_schedule_id Demo.plan_row)
                     (Garbage "not.a.token") 3000 Demo.store
     = (Demo.store, Uncaught AttributeError).
Proof.
  assert (Hno : forall user_id,
             verify_token (L := symbolic_libs) (Garbage "not.a.token") 3000
             <> Return user_id) by (intros user_id; discriminate).
  split; [exact Hno |].
  destruct (rejected_token_no_effect (L := symbolic_libs)
              (Garbage "not.a.token") 3000 Demo.store Hno)
    as [(Hd & _) | (_ & _ & _ & Hdelete & _)].
  - discriminate Hd.
  - apply Hdelete.
Defined.

(** ** Identities *)

Lemma run_users_grow {L : Libs} (rs : list (request * Z)) (conn : db) :
  exists added, users (run rs conn) = (users conn ++ added)%list.
Proof.
  revert conn. induction rs as [| [r now] rs IH]; intros conn.
  - exists []. cbn [run]. rewrite app_nil_r. reflexivity.
  - cbn [run]. destruct (IH (handle r now conn)) as [added Hadded].
    destruct (handle_users r now conn) as [Heq | (row & Heq & _)];
      rewrite Heq in Hadded.
    + exists added. exact Hadded.
    + exists (row :: added). rewrite Hadded, <- app_assoc. reflexivity.
Qed.

(** X6. No sequence of requests removes or alters an identity: the rows of
    [users] before it are, in order, the first rows of [users] after it,
    and each registered email keeps its user id and password digest. *)
Theorem identities_are_permanent {L : Libs} (rs : list (request * Z))
    (conn : db) :
  (exists added, users (run rs conn) = (users conn ++ added)%list)
  /\ (forall row, In row (users conn) -> In row (users (run rs conn))).
Proof.
  destruct (run_users_grow rs conn) as [added Hadded].
  split; [exists added; exact Hadded |].
  intros row Hin. rewrite Hadded. apply in_app_iff. auto.
Qed.

Lemma find_some_first {A : Type} (f : A -> bool) (l : list A) (a : A) :
  In a l -> f a = true -> exists x, find f l = Some x.
Proof.
  induction l as [| y l IH]; cbn [In find]; intros Hin Hfa.
  - contradiction.
  - destruct (f y) eqn:Hfy; [eauto |].
    destruct Hin as [-> | Hin]; [congruence | auto].
Qed.

(** X1. Registration and login round trip.  From a store that meets the
    schema constraints, after [register] has succeeded and whatever
    requests were served since, a [login] with the same email and password
    succeeds, leaves the store as it is, and answers with the user id that
    [register] answered with, the md5 digest of the email, together with a
    token that verifies to that id during the next seven days. *)
Theorem register_then_login {L : Libs} (conn0 conn1 : db)
    (user : UserRegister.t) (now1 now2 : Z) (issued : Token.t)
    (between : list (request * Z)) :
  db_ok conn0 ->
  register user now1 conn0 = (conn1, Return issued) ->
  exists response,
    login {| UserLogin.email := UserRegister.email user;
             UserLogin.password := UserRegister.password user |}
          now2 (run between conn1)
    = (run between conn1, Return response)
    /\ Token.user_id response = Token.user_id issued
    /\ Token.user_id issued = md5_hexdigest (UserRegister.email user)
    /\ Token.token_type response = "bearer"
    /\ (forall now3,
          now3 < now2 + 7 * 24 * 60 * 60 ->
          verify_token (Token.access_token response) now3
          = Return (Token.user_id issued)).
Proof.
  intros Hok Hreg.
  destruct (register_cases user now1 conn0)
    as [[_ H] | [[_ H] | (Hnew & conn' & Hins & H)]];
    rewrite H in Hreg; try discriminate.
  injection Hreg as <- <-. cbn [Token.user_id].
  pose proof (handle_db_ok (Register user) now1 conn0 Hok) as Hok1.
  cbn [handle] in Hok1. rewrite H in Hok1. cbn [fst] in Hok1.
  pose proof (run_db_ok between conn' Hok1) as Hok2.
  apply insert_user_Some in Hins. destruct Hins as (Hus & _).
  assert (Hrow : In (registered_row user now1) (users (run between conn'))).
  { destruct (run_users_grow between conn') as [added Hadded].
    rewrite Hadded, Hus. apply in_app_iff. left. apply in_app_iff.
    right. cbn. auto. }
  unfold login. cbn [UserLogin.email UserLogin.password].
  set (f := fun r : user_row =>
              String.eqb (u_email r) (UserRegister.email user)
              && String.eqb (u_password_hash r)
                            (hash_password (UserRegister.password user))).
  assert (Hf : f (registered_row user now1) = true).
  { unfold f, registered_row. cbn [u_email u_password_hash].
    rewrite !String.eqb_refl. reflexivity. }
  destruct (find_some_first f _ _ Hrow Hf) as [x Hx].
  rewrite Hx. apply find_some in Hx. destruct Hx as [Hxin Hfx].
  unfold f in Hfx. apply andb_prop in Hfx. destruct Hfx as [Hmail _].
  apply String.eqb_eq in Hmail.
  assert (x = registered_row user now1) as ->.
  { apply (NoDup_key_inj _ u_email (users (run between conn')));
      [apply Hok2 | assumption | assumption | exact Hmail]. }
  eexists. split; [reflexivity |].
  cbn [Token.user_id Token.token_type Token.access_token registered_row
       u_user_id].
  repeat split.
  intros now3 Hnow3. apply verify_token_fresh.
  change (timedelta_minutes ACCESS_TOKEN_EXPIRE_MINUTES)
    with (7 * 24 * 60 * 60). exact Hnow3.
Qed.

Lemma register_then_login_witness :
  db_ok empty_db
  /\ exists response,
       login (L := symbolic_libs)
             {| UserLogin.email := "alice@example.com";
                UserLogin.password := "pw123" |}
             5000
             (run (L := symbolic_libs) Demo.two_devices
                  (fst (register (L := symbolic_libs) Demo.alice 1000
                                 empty_db)))
       = (run (L := symbolic_libs) Demo.two_devices
              (fst (register (L := symbolic_libs) Demo.alice 1000 empty_db)),
          Return response)
       /\ Token.user_id response = Demo.alice_id.
Proof.
  split; [apply empty_db_ok |].
  destruct (register_then_login (L := symbolic_libs) empty_db
              (fst (register (L := symbolic_libs) Demo.alice 1000 empty_db))
              Demo.alice 1000 5000
              {| Token.access_token := Demo.alice_token;
                 Token.token_type := "bearer";
                 Token.user_id := Demo.alice_id |}
              Demo.two_devices empty_db_ok eq_refl)
    as (response & Hlogin & Hid & _).
  exists response. split; [exact Hlogin | exact Hid].
Defined.

Lemma verify_token_accepts_iff_witness :
  verify_token (L := symbolic_libs) Demo.alice_token 2000
  = Return Demo.alice_id.
Proof.
  destruct (verify_token_accepts_iff (L := symbolic_libs) Demo.alice_token
              2000) as [Hiff _].
  apply (Hiff Demo.alice_id).
  exists {| sub := Some Demo.alice_id; exp := Some 605800 |}.
  split; [reflexivity |]. split; [reflexivity |]. cbn. lia.
Defined.

Lemma identities_are_permanent_witness :
  In Demo.alice_row (users Demo.store)
  /\ In Demo.alice_row
        (users (run (L := symbolic_libs) Demo.two_devices Demo.store)).
Proof.
  assert (Hin : In Demo.alice_row (users Demo.store))
    by (left; reflexivity).
  split; [exact Hin |].
  destruct (identities_are_permanent (L := symbolic_libs) Demo.two_devices
              Demo.store) as [_ Hkeep].
  apply Hkeep. exact Hin.
Defined.

(** ** Schedules *)

Lemma filter_filter_comm {A : Type} (f g : A -> bool) (l : list A) :
  filter f (filter g l) = filter g (filter f l).
Proof.
  induction l as [| a l IH]; cbn [filter].
  - reflexivity.
  - destruct (f a) eqn:Hf, (g a) eqn:Hg; cbn [filter];
      rewrite ?Hf, ?Hg, IH; reflexivity.
Qed.

(** X4. The owner can delete. For a schedule of the store and a token that
    verifies to its owner, [delete_schedule] succeeds and removes that row
    and no other: the other rows of [schedules] stay, in order, and the
    other two tables are untouched.  A second call with the same id then
    ends with 404 "Schedule not found". *)
Theorem delete_own_schedule {L : Libs} (conn : db) (row : schedule_row)
    (t : token) (now : Z) :
  db_ok conn ->
  In row (schedules conn) ->
  verify_token t now = Return (s_user_id row) ->
  exists conn' before after,
    delete_schedule (s_schedule_id row) t now conn
    = (conn', Return {| Message.message := "Schedule deleted successfully" |})
    /\ schedules conn = (before ++ row :: after)%list
    /\ schedules conn' = (before ++ after)%list
    /\ users conn' = users conn
    /\ push_tokens conn' = push_tokens conn
    /\ (forall t' now',
          verify_token t' now' = Return (s_user_id row) ->
          delete_schedule (s_schedule_id row) t' now' conn'
          = (conn', HTTPException 404 "Schedule not found")).
Proof.
  intros Hok Hin Hver.
  destruct (in_split _ _ Hin) as (before & after & Hsplit).
  pose proof (schedules_pk conn Hok) as Hnd.
  rewrite Hsplit, map_app in Hnd. cbn [map] in Hnd.
  assert (Hother : forall x, In x (before ++ after)%list ->
                             s_schedule_id x <> s_schedule_id row).
  { intros x Hx Heq. apply NoDup_remove_2 in Hnd. apply Hnd.
    rewrite <- map_app, <- Heq. apply in_map. exact Hx. }
  set (hit := fun x => String.eqb (s_schedule_id x) (s_schedule_id row)
                       && String.eqb (s_user_id x) (s_user_id row)).
  assert (Hmiss : forall x, In x (before ++ after)%list -> hit x = false).
  { intros x Hx. unfold hit.
    destruct (String.eqb_spec (s_schedule_id x) (s_schedule_id row))
      as [Heq | _]; [exfalso; exact (Hother x Hx Heq) | reflexivity]. }
  assert (Hhit : hit row = true).
  { unfold hit. rewrite !String.eqb_refl. reflexivity. }
  assert (Hkeep : filter (fun x => negb (hit x)) (schedules conn)
                  = (before ++ after)%list).
  { rewrite Hsplit, filter_app. cbn [filter]. rewrite Hhit. cbn [negb].
    rewrite <- filter_app. apply filter_all.
    intros x Hx. rewrite (Hmiss x Hx). reflexivity. }
  assert (Hcount : filter hit (schedules conn) = [row]).
  { rewrite Hsplit, filter_app. cbn [filter]. rewrite Hhit.
    rewrite (filter_none hit before), (filter_none hit after).
    - reflexivity.
    - intros x Hx. apply Hmiss. apply in_app_iff. auto.
    - intros x Hx. apply Hmiss. apply in_app_iff. auto. }
  exists {| users := users conn;
            schedules := (before ++ after)%list;
            push_tokens := push_tokens conn |}, before, after.
  split; [| split; [exact Hsplit | repeat split]].
  - unfold delete_schedule, and_then. rewrite Hver.
    unfold delete_schedule_rows.
    cbv beta delta [hit] in Hkeep, Hcount.
    rewrite Hkeep, Hcount. reflexivity.
  - intros t' now' Hver'.
    apply (delete_schedule_no_row _ _ _ _ (s_user_id row) Hver').
    cbn [schedules]. intros x Hx. apply (Hmiss x Hx).
Qed.

Lemma delete_own_schedule_witness :
  db_ok Demo.store
  /\ In Demo.plan_row (schedules Demo.store)
  /\ exists conn',
       delete_schedule (L := symbolic_libs) (s_schedule_id Demo.plan_row)
                       Demo.alice_token 3000 Demo.store
       = (conn',
          Return {| Message.message := "Schedule deleted successfully" |})
       /\ users conn' = users Demo.store.
Proof.
  assert (Hin : In Demo.plan_row (schedules Demo.store))
    by (left; reflexivity).
  split; [apply example_store_ok |]. split; [exact Hin |].
  destruct (delete_own_schedule (L := symbolic_libs) Demo.store
              Demo.plan_row Demo.alice_token 3000
              (proj1 example_store_ok) Hin eq_refl)
    as (conn' & before & after & Hdel & _ & _ & Husers & _).
  exists conn'. split; [exact Hdel | exact Husers].
Defined.

(** X8. Creating a schedule and deleting it again with a token of the same
    subject gives back the store: when the derived id is free, the store
    after [create_schedule] followed by [delete_schedule] of the id that
    was answered is the store before, and both calls succeed. *)
Theorem create_then_delete_restores {L : Libs} (conn : db)
    (schedule : Schedule.t) (t t' : token) (now now' : Z) (owner : string) :
  verify_token t now = Return owner ->
  verify_token t' now' = Return owner ->
  ~ In (md5_hexdigest (owner ++ str_datetime now))
       (map s_schedule_id (schedules conn)) ->
  exists conn1 created,
    create_schedule schedule t now conn = (conn1, Return created)
    /\ delete_schedule (Created.schedule_id created) t' now' conn1
       = (conn, Return {| Message.message :=
                            "Schedule deleted successfully" |}).
Proof.
  intros Hver Hver' Hfresh.
  rewrite (create_schedule_fresh schedule t now conn owner Hver Hfresh).
  do 2 eexists. split; [reflexivity |].
  cbn [Created.schedule_id].
  unfold delete_schedule, and_then. rewrite Hver'.
  unfold delete_schedule_rows. cbn [schedules users push_tokens].
  set (sid := md5_hexdigest (owner ++ str_datetime now)) in *.
  set (hit := fun x => String.eqb (s_schedule_id x) sid
                       && String.eqb (s_user_id x) owner).
  assert (Hmiss : forall x, In x (schedules conn) -> hit x = false).
  { intros x Hx. unfold hit.
    destruct (String.eqb_spec (s_schedule_id x) sid) as [Heq | _];
      [| reflexivity].
    exfalso. apply Hfresh. rewrite <- Heq. apply in_map. exact Hx. }
  assert (Hhit : hit (created_row schedule owner now) = true).
  { unfold hit, created_row, sid. cbn [s_schedule_id s_user_id].
    rewrite !String.eqb_refl. reflexivity. }
  rewrite !filter_app. cbn [filter].
  change (fun x : schedule_row =>
            negb (String.eqb (s_schedule_id x) sid
                  && String.eqb (s_user_id x) owner))
    with (fun x => negb (hit x)).
  change (String.eqb (s_schedule_id (created_row schedule owner now)) sid
          && String.eqb (s_user_id (created_row schedule owner now)) owner)
    with (hit (created_row schedule owner now)).
  rewrite Hhit. cbn [negb].
  rewrite (filter_none hit _ Hmiss), app_nil_r.
  rewrite filter_all
    by (intros x Hx; rewrite (Hmiss x Hx); reflexivity).
  cbn [app List.length Nat.eqb]. destruct conn; reflexivity.
Qed.

Lemma create_then_delete_restores_witness :
  exists conn1 created,
    create_schedule (L := symbolic_libs) Demo.my_plan Demo.alice_token 4000
                    Demo.store = (conn1, Return created)
    /\ delete_schedule (L := symbolic_libs) (Created.schedule_id created)
                       Demo.alice_token 4500 conn1
       = (Demo.store,
          Return {| Message.message := "Schedule deleted successfully" |}).
Proof.
  apply (create_then_delete_restores (L := symbolic_libs) Demo.store
           Demo.my_plan Demo.alice_token Demo.alice_token 4000 4500
           Demo.alice_id).
  - reflexivity.
  - reflexivity.
  - vm_compute. intros [H | []]. discriminate H.
Defined.

Lemma handle_other_owner {L : Libs} (B : string) (r : request) (now : Z)
    (conn : db) :
  ~ acts_as B r now ->
  schedules_of B (handle r now conn) = schedules_of B conn
  /\ push_rows_of B (handle r now conn) = push_rows_of B conn.
Proof.
  intros Hnot. unfold schedules_of, push_rows_of.
  destruct r as [user | user | schedule t | user_id t | schedule_id t
                 | push_token t]; cbn [handle].
  - destruct (register_cases user now conn)
      as [[_ ->] | [[_ ->] | (_ & conn' & Hins & ->)]]; auto.
    apply insert_user_Some in Hins. destruct Hins as (_ & Hss & Hps & _).
    cbn [fst]. rewrite Hss, Hps. auto.
  - rewrite login_store. auto.
  - unfold create_schedule, and_then.
    destruct (verify_token t now) as [A | c d | e] eqn:Hver; auto.
    match goal with
    | |- context [insert_schedule ?r conn] =>
        destruct (insert_schedule r conn) as [conn' |] eqn:Hins; auto;
        apply insert_schedule_Some in Hins;
        destruct Hins as (_ & Hss & Hps & _)
    end.
    cbn [fst]. rewrite Hss, Hps, filter_app. cbn [filter s_user_id].
    destruct (String.eqb_spec A B) as [-> | _].
    + exfalso. apply Hnot. exists t. auto.
    + rewrite app_nil_r. auto.
  - rewrite get_user_schedules_store. auto.
  - unfold delete_schedule, and_then.
    destruct (verify_token t now) as [A | c d | e] eqn:Hver; auto.
    unfold delete_schedule_rows.
    destruct (Nat.eqb _ 0); cbn [fst schedules push_tokens];
      (split; [| reflexivity]);
      rewrite filter_filter_comm; apply filter_all; intros x Hx;
      apply filter_In in Hx; destruct Hx as [_ Hx];
      apply String.eqb_eq in Hx;
      (destruct (String.eqb_spec (s_user_id x) A) as [HA | _];
       [exfalso; apply Hnot; exists t; split; [reflexivity | congruence]
       | rewrite andb_false_r; reflexivity]).
  - unfold register_push_token, and_then.
    destruct (verify_token t now) as [A | c d | e] eqn:Hver; auto.
    unfold insert_or_replace_push. cbn [fst schedules push_tokens p_user_id].
    split; [reflexivity |].
    rewrite filter_app. cbn [filter p_user_id].
    destruct (String.eqb_spec A B) as [-> | Hne].
    + exfalso. apply Hnot. exists t. auto.
    + rewrite app_nil_r, filter_filter_comm. apply filter_all.
      intros x Hx. apply filter_In in Hx. destruct Hx as [_ Hx].
      apply String.eqb_eq in Hx. apply negb_true_iff.
      apply String.eqb_neq. congruence.
Qed.

(** X5. Nobody touches what another identity owns.  Through a sequence of
    requests none of which carries a token that verifies to [B] when it is
    served, the schedules owned by [B] and the push registration of [B]
    stay exactly as they were: nothing is added, removed or changed. *)
Theorem other_owners_untouched {L : Libs} (B : string)
    (rs : list (request * Z)) (conn : db) :
  Forall (fun rn => ~ acts_as B (fst rn) (snd rn)) rs ->
  schedules_of B (run rs conn) = schedules_of B conn
  /\ push_rows_of B (run rs conn) = push_rows_of B conn.
Proof.
  revert conn. induction rs as [| [r now] rs IH]; intros conn Hall.
  - auto.
  - inversion Hall as [| ? ? Hr Hrest]; subst. cbn [run fst snd] in *.
    destruct (IH (handle r now conn) Hrest) as [Hs Hp].
    destruct (handle_other_owner B r now conn Hr) as [Hs' Hp'].
    rewrite Hs, Hp, Hs', Hp'. auto.
Qed.

Lemma other_owners_untouched_witness :
  Forall (fun rn => ~ acts_as (L := symbolic_libs) Demo.bob_id
                              (fst rn) (snd rn)) Demo.two_devices
  /\ schedules_of Demo.bob_id
       (run (L := symbolic_libs) Demo.two_devices Demo.store)
     = schedules_of Demo.bob_id Demo.store
  /\ push_rows_of Demo.bob_id
       (run (L := symbolic_libs) Demo.two_devices Demo.store)
     = push_rows_of Demo.bob_id Demo.store.
Proof.
  assert (Hall : Forall (fun rn => ~ acts_as (L := symbolic_libs)
                                     Demo.bob_id (fst rn) (snd rn))
                        Demo.two_devices).
  { repeat constructor; intros (t & Ht & Hv); injection Ht as <-;
      vm_compute in Hv; discriminate Hv. }
  split; [exact Hall |].
  apply (other_owners_untouched (L := symbolic_libs) Demo.bob_id
           Demo.two_devices Demo.store Hall).
Defined.

(** ** Routing *)

Lemma dispatch_by_segments (m : http_method) (path : string) :
  dispatch m path = dispatch_segments m (split_on "/" path).
Proof.
  unfold dispatch, dispatch_segments.
  change route_segments
    with (map (fun r : http_method * string * endpoint =>
                 (fst (fst r), split_on "/" (snd (fst r)), snd r)) routes).
  induction routes as [| [[m' template] ep] l IH]; [reflexivity |].
  cbn [map find fst snd]. unfold path_matches at 1.
  destruct (http_method_eqb m' m
            && segments_match (split_on "/" template) (split_on "/" path));
    [reflexivity | exact IH].
Qed.

Lemma segment_literal (a b : string) :
  String.eqb a b = true -> a = b.
Proof. apply String.eqb_eq. Qed.

Lemma segments_match_cons (t : string) (ts actual : list string) :
  segments_match (t :: ts) actual = true ->
  exists a acts,
    actual = a :: acts
    /\ segment_matches t a = true /\ segments_match ts acts = true.
Proof.
  destruct actual as [| a acts]; cbn [segments_match]; [discriminate |].
  intros H. apply andb_prop in H. exists a, acts. tauto.
Qed.

Lemma segments_match_nil (actual : list string) :
  segments_match [] actual = true -> actual = [].
Proof. destruct actual; [reflexivity | discriminate]. Qed.

Ltac segments_shape H :=
  repeat match type of H with
         | segments_match (_ :: _) _ = true =>
             apply segments_match_cons in H;
             let a := fresh "a" in
             let acts := fresh "acts" in
             let Hseg := fresh "Hseg" in
             destruct H as (a & acts & -> & Hseg & H);
             cbn [segment_matches] in Hseg;
             try (apply String.eqb_eq in Hseg; subst a)
         | segments_match [] _ = true =>
             apply segments_match_nil in H; subst
         end.

(** X9. No route of the table is shadowed by an earlier one: whenever the
    method and the path of a request match a route, [dispatch] sends the
    request to the handler of that very route. *)
Theorem routes_not_shadowed (m : http_method) (template path : string)
    (ep : endpoint) :
  In (m, template, ep) routes ->
  path_matches template path = true ->
  dispatch m path = Some ep.
Proof.
  intros Hin Hmatch. rewrite dispatch_by_segments.
  unfold path_matches in Hmatch.
  generalize dependent (split_on "/" path). intros segments Hmatch.
  unfold routes in Hin. cbn [In] in Hin.
  repeat (destruct Hin as [Hin | Hin];
          [injection Hin as <- <- <-;
           match type of Hmatch with
           | segments_match ?l _ = true =>
               let l' := eval cbv in l in change l with l' in Hmatch
           end;
           segments_shape Hmatch;
           unfold dispatch_segments, route_segments;
           cbn [find fst snd http_method_eqb andb segments_match
                segment_matches String.eqb Ascii.eqb Bool.eqb];
           rewrite ?Hseg, ?Hseg0, ?Hseg1, ?Hseg2, ?Hseg3, ?Hseg4;
           reflexivity |]).
  contradiction.
Qed.

Lemma routes_not_shadowed_witness :
  In (GET, "/api/matches/stadium/{stadium_id}", ep_get_matches_by_stadium)
     routes
  /\ path_matches "/api/matches/stadium/{stadium_id}"
                  "/api/matches/stadium/metlife-stadium" = true
  /\ dispatch GET "/api/matches/stadium/metlife-stadium"
     = Some ep_get_matches_by_stadium.
Proof.
  assert (Hin : In (GET, "/api/matches/stadium/{stadium_id}",
                    ep_get_matches_by_stadium) routes).
  { unfold routes. cbn [In]. do 6 right. left. reflexivity. }
  split; [exact Hin |]. split; [reflexivity |].
  apply (routes_not_shadowed GET "/api/matches/stadium/{stadium_id}"
           "/api/matches/stadium/metlife-stadium"
           ep_get_matches_by_stadium Hin).
  reflexivity.
Defined.

(** * Further properties of the catalog endpoints *)

Section CatalogFacts.
Import Providers.
Import Catalog.





Lemma matches_at_filter (stadium_id : string) (matches : list json) :
  Forall is_object matches ->
  matches_at stadium_id matches
  = Ok (filter (played_at stadium_id) matches).
Proof.
  induction 1 as [| m rest [members ->] _ IH]; cbn [matches_at filter].
  - reflexivity.
  - unfold bind, played_at. cbn [dict_get].
    destruct (lookup "stadium_id" members) as [v |]; rewrite IH;
      reflexivity.
Qed.

(** X11. When the entries of the match list are objects,
    [get_matches_by_stadium] answers with the entries whose [stadium_id]
    is the text asked for, in the order of the list, under the keys
    [stadium_id] and [matches]; for a stadium nobody plays at, the list is
    empty and the answer is not a 404. *)
Theorem get_matches_by_stadium_filter (matches_data : json)
    (matches : list json) (stadium_id : string) :
  getitem matches_data "matches" = Ok (JArr matches) ->
  Forall is_object matches ->
  get_matches_by_stadium matches_data stadium_id
  = Ok (JObj [ ("stadium_id", JStr stadium_id);
               ("matches", JArr (filter (played_at stadium_id) matches)) ]).
Proof.
  intros Hdata Hobjects. unfold get_matches_by_stadium, bind.
  rewrite Hdata. cbn [iterate].
  rewrite (matches_at_filter _ _ Hobjects). reflexivity.
Qed.

End CatalogFacts.

Section StadiumFacts.
Import Providers.
Import Catalog.

Lemma key_eq_JStr_r (k : json) (s : string) :
  key_eq k (JStr s) = true <-> k = JStr s.
Proof.
  destruct k as [| b | q | x | items | members]; cbn [key_eq];
    try (split; [discriminate | intros [=]]).
  rewrite String.eqb_eq. split; [intros -> | intros [= ->]]; reflexivity.
Qed.

Lemma key_eq_JStr_l (k : json) (s : string) :
  key_eq (JStr s) k = true <-> k = JStr s.
Proof.
  destruct k as [| b | q | x | items | members]; cbn [key_eq];
    try (split; [discriminate | intros [=]]).
  rewrite String.eqb_eq. split; [intros -> | intros [= ->]]; reflexivity.
Qed.

Lemma stadium_store_stadium (stadium_id : string) (k data : json)
    (stadiums : list (json * json)) :
  stadium stadium_id (store_stadium k data stadiums)
  = if key_eq k (JStr stadium_id) then Some data
    else stadium stadium_id stadiums.
Proof.
  induction stadiums as [| [k' d] rest IH]; cbn [store_stadium stadium].
  - reflexivity.
  - destruct (key_eq k' k) eqn:Hkk; cbn [stadium].
    + destruct (key_eq k' (JStr stadium_id)) eqn:Hks.
      * apply key_eq_JStr_r in Hks. subst k'.
        apply key_eq_JStr_l in Hkk. subst k.
        cbn [key_eq]. rewrite String.eqb_refl. reflexivity.
      * destruct (key_eq k (JStr stadium_id)) eqn:Hk; [| reflexivity].
        apply key_eq_JStr_r in Hk. subst k.
        apply key_eq_JStr_r in Hkk. subst k'.
        cbn [key_eq] in Hks. rewrite String.eqb_refl in Hks. discriminate.
    + destruct (key_eq k' (JStr stadium_id)) eqn:Hks.
      * apply key_eq_JStr_r in Hks. subst k'.
        destruct (key_eq k (JStr stadium_id)) eqn:Hk; [| reflexivity].
        apply key_eq_JStr_r in Hk. subst k.
        cbn [key_eq] in Hkk. rewrite String.eqb_refl in Hkk. discriminate.
      * exact IH.
Qed.

Lemma load_from_latest (stadium_id : string) (files : list (option json))
    (stadiums loaded : list (json * json)) :
  load_from files stadiums = Ok loaded ->
  stadium stadium_id loaded
  = latest stadium_id files (stadium stadium_id stadiums).
Proof.
  revert stadiums. induction files as [| [d |] rest IH]; intros stadiums;
    cbn [load_from latest].
  - intros [= <-]. reflexivity.
  - unfold bind. destruct (getitem d "stadium_id") as [k | e] eqn:Hk;
      [| discriminate].
    destruct (hashable k) eqn:Hhash; [| discriminate].
    intros Hload. rewrite (IH _ Hload), stadium_store_stadium.
    destruct k as [| b | q | s | items | members]; cbn [key_eq];
      try reflexivity.
    destruct (String.eqb s stadium_id); reflexivity.
  - discriminate.
Qed.

Lemma latest_Some (stadium_id : string) (files : list (option json))
    (init : option json) (d : json) :
  latest stadium_id files init = Some d
  <-> (exists before after,
         files = (before ++ Some d :: after)%list
         /\ getitem d "stadium_id" = Ok (JStr stadium_id)
         /\ Forall (other_stadium stadium_id) after)
      \/ (init = Some d /\ Forall (other_stadium stadium_id) files).
Proof.
  revert init. induction files as [| [x |] rest IH]; intros init;
    cbn [latest].
  - split.
    + intros ->. right. split; [reflexivity | constructor].
    + intros [(before & after & Hnil & _) | [-> _]]; [| reflexivity].
      destruct before; discriminate.
  - destruct (getitem x "stadium_id") as [[| b | q | s | items | members] | e]
      eqn:Hx;
      try (rewrite IH; clear IH; split;
           [ intros [(before & after & -> & Hd & Hafter) | [-> Hrest]];
             [ left; exists (Some x :: before), after; auto
             | right; split; [reflexivity |]; constructor; [| exact Hrest];
               intros y [= <-]; congruence ]
           | intros [(before & after & Heq & Hd & Hafter) | [-> Hall]];
             [ destruct before as [| b0 before]; cbn [app] in Heq;
               [ injection Heq as -> ->; congruence
               | injection Heq as _ ->; left; eauto ]
             | right; inversion Hall; auto ] ]).
    destruct (String.eqb_spec s stadium_id) as [-> | Hne].
    + rewrite IH; clear IH. split.
      * intros [(before & after & -> & Hd & Hafter) | [[= <-] Hrest]].
        -- left. exists (Some x :: before), after. auto.
        -- left. exists [], rest. auto.
      * intros [(before & after & Heq & Hd & Hafter) | [-> Hall]].
        -- destruct before as [| b0 before]; cbn [app] in Heq.
           ++ injection Heq as -> ->. right. auto.
           ++ injection Heq as _ ->. left. eauto.
        -- inversion Hall as [| ? ? Hx' _]; subst.
           exfalso. apply (Hx' x eq_refl). exact Hx.
    + rewrite IH; clear IH. split.
      * intros [(before & after & -> & Hd & Hafter) | [-> Hrest]].
        -- left. exists (Some x :: before), after. auto.
        -- right. split; [reflexivity |]. constructor; [| exact Hrest].
           intros y [= <-]. rewrite Hx. intros [= Heq]. auto.
      * intros [(before & after & Heq & Hd & Hafter) | [-> Hall]].
        -- destruct before as [| b0 before]; cbn [app] in Heq.
           ++ injection Heq as -> ->. rewrite Hx in Hd.
              injection Hd as Hd. contradiction.
           ++ injection Heq as _ ->. left. eauto.
        -- right. inversion Hall; auto.
  - rewrite IH; clear IH. split.
    + intros [(before & after & -> & Hd & Hafter) | [-> Hrest]].
      * left. exists (None :: before), after. auto.
      * right. split; [reflexivity |]. constructor; [| exact Hrest].
        intros y [=].
    + intros [(before & after & Heq & Hd & Hafter) | [-> Hall]].
      * destruct before as [| b0 before]; cbn [app] in Heq;
          [discriminate |].
        injection Heq as _ ->. left. eauto.
      * right. inversion Hall; auto.
Qed.

End StadiumFacts.

Section StadiumAnswers.
Import Providers.
Import Catalog.

Lemma latest_init_Some (stadium_id : string) (files : list (option json))
    (d : json) :
  exists d', latest stadium_id files (Some d) = Some d'.
Proof.
  revert d. induction files as [| [x |] rest IH]; intros d; cbn [latest].
  - eauto.
  - destruct (getitem x "stadium_id") as [[| b | q | s | items | members] | e];
      auto.
    destruct (String.eqb s stadium_id); auto.
  - auto.
Qed.

Lemma latest_None (stadium_id : string) (files : list (option json)) :
  latest stadium_id files None = None
  <-> Forall (other_stadium stadium_id) files.
Proof.
  split.
  - induction files as [| [x |] rest IH]; cbn [latest]; intros Hnone.
    + constructor.
    + destruct (getitem x "stadium_id")
        as [[| b | q | s | items | members] | e] eqn:Hx;
        try (constructor; [intros y [= <-]; congruence | auto]).
      destruct (String.eqb_spec s stadium_id) as [-> | Hne].
      * destruct (latest_init_Some stadium_id rest x) as [d' Hd'].
        congruence.
      * constructor; [| auto].
        intros y [= <-]. rewrite Hx. intros [= Heq]. auto.
    + constructor; [intros y [=] | auto].
  - intros Hall.
    destruct (latest stadium_id files None) as [d |] eqn:Hl; [| reflexivity].
    apply latest_Some in Hl.
    destruct Hl as [(before & after & -> & Hd & _) | [[=] _]].
    apply Forall_app in Hall. destruct Hall as [_ Hall].
    inversion Hall as [| ? ? Hx _]; subst.
    exfalso. exact (Hx d eq_refl Hd).
Qed.

(** X12. When every stadium file loads, [get_stadium] answers with the
    document of the last file, in listing order, whose [stadium_id] is the
    text asked for (a later file replaces an earlier one with the same
    id), and with 404 "Stadium not found" exactly when no file has that
    id.  The mock weather endpoint answers 404 for exactly the same
    stadium ids. *)
Theorem get_stadium_latest (files : list (option json))
    (stadium_id : string) (loaded : list (json * json)) :
  load_stadiums files = Ok loaded ->
  (forall d,
     get_stadium files stadium_id = Ok (Return d)
     <-> exists before after,
           files = (before ++ Some d :: after)%list
           /\ getitem d "stadium_id" = Ok (JStr stadium_id)
           /\ Forall (other_stadium stadium_id) after)
  /\ (get_stadium files stadium_id
      = Ok (HTTPException 404 "Stadium not found")
      <-> Forall (other_stadium stadium_id) files)
  /\ (forall today utcnow_isoformat date,
        get_weather files today utcnow_isoformat stadium_id date
        = Ok (HTTPException 404 "Stadium not found")
        <-> get_stadium files stadium_id
            = Ok (HTTPException 404 "Stadium not found")).
Proof.
  intros Hload. unfold get_stadium, get_weather, bind. rewrite Hload.
  pose proof (load_from_latest stadium_id files [] loaded Hload) as Hl.
  cbn [stadium] in Hl. rewrite Hl. split; [| split].
  - intros d. destruct (latest stadium_id files None) as [x |] eqn:Hx.
    + split.
      * intros [= <-]. apply latest_Some in Hx.
        destruct Hx as [Hx | [[=] _]]. exact Hx.
      * intros Hsplit.
        assert (Hd : latest stadium_id files None = Some d)
          by (apply latest_Some; left; exact Hsplit).
        congruence.
    + split; [discriminate |]. intros Hsplit.
      assert (Hd : latest stadium_id files None = Some d)
        by (apply latest_Some; left; exact Hsplit).
      congruence.
  - rewrite <- latest_None.
    destruct (latest stadium_id files None); split;
      discriminate || reflexivity.
  - intros today utcnow_isoformat date.
    destruct (latest stadium_id files None) as [d |];
      [| split; reflexivity].
    split; [| discriminate].
    destruct (getitem d "location") as [location | e]; [| discriminate].
    destruct (getitem location "city"); discriminate.
Qed.

End StadiumAnswers.


Lemma get_matches_by_stadium_filter_witness :
  Catalog.get_matches_by_stadium
    (Providers.JObj
       [ ("matches",
          Providers.JArr
            [ Providers.JObj [ ("stadium_id", Providers.JStr "metlife") ];
              Providers.JObj [ ("match_id", Providers.JNum 2) ] ]) ])
    "azteca"
  = Providers.Ok
      (Providers.JObj [ ("stadium_id", Providers.JStr "azteca");
                        ("matches", Providers.JArr []) ]).
Proof.
  apply (get_matches_by_stadium_filter
           (Providers.JObj
              [ ("matches",
                 Providers.JArr
                   [ Providers.JObj
                       [ ("stadium_id", Providers.JStr "metlife") ];
                     Providers.JObj [ ("match_id", Providers.JNum 2) ] ]) ])
           [ Providers.JObj [ ("stadium_id", Providers.JStr "metlife") ];
             Providers.JObj [ ("match_id", Providers.JNum 2) ] ]
           "azteca" eq_refl).
  repeat constructor; eexists; reflexivity.
Defined.

Lemma get_stadium_latest_witness :
  Catalog.get_stadium
    [ Some (Providers.JObj [ ("stadium_id", Providers.JStr "metlife");
                             ("capacity", Providers.JNum 1) ]);
      Some (Providers.JObj [ ("stadium_id", Providers.JStr "metlife");
                             ("capacity", Providers.JNum 2) ]) ]
    "metlife"
  = Providers.Ok
      (Return (Providers.JObj [ ("stadium_id", Providers.JStr "metlife");
                                ("capacity", Providers.JNum 2) ])).
Proof.
  destruct (get_stadium_latest
              [ Some (Providers.JObj
                        [ ("stadium_id", Providers.JStr "metlife");
                          ("capacity", Providers.JNum 1) ]);
                Some (Providers.JObj
                        [ ("stadium_id", Providers.JStr "metlife");
                          ("capacity", Providers.JNum 2) ]) ]
              "metlife" _ eq_refl) as [Hlast _].
  apply Hlast.
  exists [ Some (Providers.JObj
                   [ ("stadium_id", Providers.JStr "metlife");
                     ("capacity", Providers.JNum 1) ]) ], [].
  split; [reflexivity |]. split; [reflexivity | constructor].
Defined.

(** * Further properties of the provider services *)

Ltac through_binds :=
  repeat match goal with
         | |- Providers.bind ?m _ = Providers.Ok _ -> _ =>
             destruct m; cbn [Providers.bind]; [| discriminate]
         | |- (if ?b then _ else _) = Providers.Ok _ -> _ =>
             destruct b
         end.

Section Shapes.
Import Providers.

Variable requests_get : string -> list (string * json) -> reply.
Variable utcnow_isoformat : string.
Variable format_float : Q -> string.
Variable int_of_str : string -> option Z.

Lemma travel_time_body_keys (self : TrafficService)
    (origin_lat origin_lon dest_lat dest_lon : Q) (mode : string)
    (v : json) :
  travel_time_body requests_get utcnow_isoformat format_float self
    origin_lat origin_lon dest_lat dest_lon mode = Ok v ->
  has_keys traffic_keys v.
Proof.
  unfold travel_time_body.
  destruct (requests_get _ _) as [e | status_code body]; [discriminate |].
  through_binds; intros [= <-]; eexists; split; reflexivity.
Qed.

Lemma current_weather_body_keys (self : WeatherService) (lat lon : Q)
    (v : json) :
  current_weather_body requests_get utcnow_isoformat int_of_str self lat lon
  = Ok v ->
  has_keys weather_keys v.
Proof.
  unfold current_weather_body.
  destruct (requests_get _ _) as [e | status_code body]; [discriminate |].
  through_binds; intros [= <-]; eexists; split; reflexivity.
Qed.

Lemma forecast_body_keys (self : WeatherService) (lat lon : Q)
    (date : option string) (v : json) :
  forecast_body requests_get utcnow_isoformat int_of_str self lat lon date
  = Ok v ->
  has_keys weather_keys v.
Proof.
  unfold forecast_body.
  destruct (requests_get _ _) as [e | status_code body]; [discriminate |].
  through_binds; intros [= <-]; eexists; split; reflexivity.
Qed.

Lemma get_travel_time_keys (self : TrafficService)
    (origin_lat origin_lon dest_lat dest_lon : Q) (mode : string) :
  exists payload,
    get_travel_time requests_get utcnow_isoformat format_float self
      origin_lat origin_lon dest_lat dest_lon mode = Ok payload
    /\ has_keys traffic_keys payload.
Proof.
  unfold get_travel_time.
  destruct (String.eqb (t_api_key self) "");
    [eexists; split; [reflexivity | eexists; split; reflexivity] |].
  destruct (travel_time_body _ _ _ _ _ _ _ _ _) as [v | e] eqn:Hbody;
    cbn [try_except].
  - exists v. split; [reflexivity |].
    exact (travel_time_body_keys _ _ _ _ _ _ _ Hbody).
  - eexists; split; [reflexivity | eexists; split; reflexivity].
Qed.

End Shapes.

(** X15. The answers of the three provider calls always have the same
    shape.  Whatever the network does, [get_travel_time] returns an object
    with exactly the ten keys of the mock traffic payload, in the same
    order, and [get_current_weather] and [get_forecast] return an object
    with exactly the nine keys of the mock weather payload. *)
Theorem provider_payload_shapes
    (requests_get : string -> list (string * Providers.json)
                    -> Providers.reply)
    (utcnow_isoformat : string) (format_float : Q -> string)
    (int_of_str : string -> option Z) :
  (forall self origin_lat origin_lon dest_lat dest_lon mode,
     exists payload,
       Providers.get_travel_time requests_get utcnow_isoformat format_float
         self origin_lat origin_lon dest_lat dest_lon mode
       = Providers.Ok payload
       /\ has_keys traffic_keys payload)
  /\ (forall self lat lon,
        exists payload,
          Providers.get_current_weather requests_get utcnow_isoformat
            int_of_str self lat lon = Providers.Ok payload
          /\ has_keys weather_keys payload)
  /\ (forall self lat lon date,
        exists payload,
          Providers.get_forecast requests_get utcnow_isoformat int_of_str
            self lat lon date = Providers.Ok payload
          /\ has_keys weather_keys payload).
Proof.
  split; [intros; apply get_travel_time_keys |]. split.
  - intros self lat lon. unfold Providers.get_current_weather.
    destruct (String.eqb (Providers.w_api_key self) "");
      [eexists; split; [reflexivity | eexists; split; reflexivity] |].
    destruct (Providers.current_weather_body _ _ _ _ _ _) as [v | e]
      eqn:Hbody; cbn [Providers.try_except].
    + exists v. split; [reflexivity |].
      exact (current_weather_body_keys _ _ _ _ _ _ _ Hbody).
    + eexists; split; [reflexivity | eexists; split; reflexivity].
  - intros self lat lon date. unfold Providers.get_forecast.
    destruct (String.eqb (Providers.w_api_key self) "");
      [eexists; split; [reflexivity | eexists; split; reflexivity] |].
    destruct (Providers.forecast_body _ _ _ _ _ _ _) as [v | e]
      eqn:Hbody; cbn [Providers.try_except].
    + exists v. split; [reflexivity |].
      exact (forecast_body_keys _ _ _ _ _ _ _ _ Hbody).
    + eexists; split; [reflexivity | eexists; split; reflexivity].
Qed.

Section StadiumTraffic.
Import Providers.

Variable requests_get : string -> list (string * json) -> reply.
Variable utcnow_isoformat : string.
Variable format_float : Q -> string.

Lemma coordinate_cases (key : string) (origin : list (string * Q)) :
  (exists v, coordinate key origin = Ok v)
  \/ coordinate key origin = Raise KeyError.
Proof.
  induction origin as [| [k v] rest IH]; cbn [coordinate]; auto.
  destruct (String.eqb k key); eauto.
Qed.

Lemma lookup_assign_same (key : string) (v : json)
    (members : list (string * json)) :
  lookup key (assign key v members) = Some v.
Proof.
  induction members as [| [k x] rest IH]; cbn [assign lookup].
  - rewrite String.eqb_refl. reflexivity.
  - destruct (String.eqb k key) eqn:Hk; cbn [lookup]; rewrite Hk; auto.
Qed.

Lemma lookup_assign_other (key other : string) (v : json)
    (members : list (string * json)) :
  other <> key ->
  lookup other (assign key v members) = lookup other members.
Proof.
  intros Hne. induction members as [| [k x] rest IH]; cbn [assign lookup].
  - apply String.eqb_neq in Hne. rewrite String.eqb_sym, Hne. reflexivity.
  - destruct (String.eqb_spec k key) as [-> | Hk]; cbn [lookup].
    + apply String.eqb_neq in Hne. rewrite String.eqb_sym, Hne.
      reflexivity.
    + rewrite IH. reflexivity.
Qed.

Lemma get_stadium_traffic_all (self : TrafficService)
    (stadium_lat stadium_lon : Q) (origins : list (list (string * Q))) :
  Forall has_coordinates origins ->
  exists results,
    get_stadium_traffic requests_get utcnow_isoformat format_float self
      stadium_lat stadium_lon origins = Ok results
    /\ Forall2 (result_for requests_get utcnow_isoformat format_float self
                          stadium_lat stadium_lon) origins results.
Proof.
  induction 1 as [| origin rest (lat & lon & Hlat & Hlon) _ IH];
    cbn [get_stadium_traffic].
  - exists []. split; [reflexivity | constructor].
  - destruct IH as (results & Hrest & Hrel).
    destruct (get_travel_time_keys requests_get utcnow_isoformat
                format_float self lat lon stadium_lat stadium_lon "driving")
      as (payload & Hpayload & members & -> & Hkeys).
    unfold bind. rewrite Hlat, Hlon, Hpayload. cbn [setitem].
    rewrite Hrest. eexists. split; [reflexivity |].
    constructor; [| exact Hrel].
    split.
    + cbn [getitem]. rewrite lookup_assign_same. reflexivity.
    + exists lat, lon, (JObj members). repeat split; try assumption.
      intros key Hkey. cbn [getitem].
      rewrite (lookup_assign_other _ _ _ _ Hkey). reflexivity.
Qed.

Lemma get_stadium_traffic_missing (self : TrafficService)
    (stadium_lat stadium_lon : Q) (origins : list (list (string * Q))) :
  Exists (fun origin => ~ has_coordinates origin) origins ->
  get_stadium_traffic requests_get utcnow_isoformat format_float self
    stadium_lat stadium_lon origins = Raise KeyError.
Proof.
  induction origins as [| origin rest IH]; intros Hex;
    [inversion Hex |].
  cbn [get_stadium_traffic]. unfold bind.
  destruct (coordinate_cases "lat" origin) as [[lat Hlat] | Hlat];
    rewrite Hlat; [| reflexivity].
  destruct (coordinate_cases "lon" origin) as [[lon Hlon] | Hlon];
    rewrite Hlon; [| reflexivity].
  destruct (get_travel_time_keys requests_get utcnow_isoformat
              format_float self lat lon stadium_lat stadium_lon "driving")
    as (payload & Hpayload & members & -> & _).
  rewrite Hpayload. cbn [setitem].
  inversion Hex as [? ? Hhere | ? ? Hlater]; subst.
  - exfalso. apply Hhere. exists lat, lon. auto.
  - rewrite (IH Hlater). reflexivity.
Qed.

End StadiumTraffic.

(** X13. [get_stadium_traffic] answers one result per origin, in order:
    when every origin has a ["lat"] and a ["lon"], the call returns, and
    each result is the payload of [get_travel_time] from that origin to
    the stadium by car with the origin added under the key ["origin"].
    When some origin lacks a coordinate the call raises [KeyError]: the
    lookups are outside the [try] of [get_travel_time], so this failure is
    not absorbed. *)
Theorem get_stadium_traffic_results
    (requests_get : string -> list (string * Providers.json)
                    -> Providers.reply)
    (utcnow_isoformat : string) (format_float : Q -> string)
    (self : Providers.TrafficService) (stadium_lat stadium_lon : Q)
    (origins : list (list (string * Q))) :
  (Forall has_coordinates origins ->
   exists results,
     Providers.get_stadium_traffic requests_get utcnow_isoformat
       format_float self stadium_lat stadium_lon origins
     = Providers.Ok results
     /\ List.length results = List.length origins
     /\ Forall2 (result_for requests_get utcnow_isoformat format_float self
                            stadium_lat stadium_lon) origins results)
  /\ (Exists (fun origin => ~ has_coordinates origin) origins ->
      Providers.get_stadium_traffic requests_get utcnow_isoformat
        format_float self stadium_lat stadium_lon origins
      = Providers.Raise Providers.KeyError).
Proof.
  split.
  - intros Hall.
    destruct (get_stadium_traffic_all requests_get utcnow_isoformat
                format_float self stadium_lat stadium_lon origins Hall)
      as (results & Hget & Hrel).
    exists results. split; [exact Hget |]. split; [| exact Hrel].
    symmetry. exact (Forall2_length Hrel).
  - apply get_stadium_traffic_missing.
Qed.

Lemma get_stadium_traffic_results_witness :
  Providers.get_stadium_traffic Demo.network_down "2026-06-11T18:00:00"
    (fun _ => "0.0") Demo.traffic 0 0
    [ [ ("lat", 1%Q); ("lon", 2%Q) ]; [ ("lat", 1%Q) ] ]
  = Providers.Raise Providers.KeyError.
Proof.
  apply (get_stadium_traffic_results Demo.network_down
           "2026-06-11T18:00:00" (fun _ => "0.0") Demo.traffic 0 0
           [ [ ("lat", 1%Q); ("lon", 2%Q) ]; [ ("lat", 1%Q) ] ]).
  right. left. intros (lat & lon & _ & Hlon). discriminate Hlon.
Defined.

Section Forecast.
Import Providers.

Variable requests_get : string -> list (string * json) -> reply.
Variable utcnow_isoformat : string.
Variable int_of_str : string -> option Z.

Lemma get_forecast_failed (self : WeatherService) (lat lon : Q)
    (date : option string) (r : reply) :
  (forall url params, requests_get url params = r) ->
  provider_failed r = true ->
  get_forecast requests_get utcnow_isoformat int_of_str self lat lon date
  = Ok (_mock_weather_data utcnow_isoformat).
Proof.
  intros Hreply Hfailed. unfold get_forecast.
  destruct (String.eqb (w_api_key self) ""); [reflexivity |].
  unfold forecast_body. rewrite Hreply.
  destruct r as [e | status_code body]; [reflexivity |].
  unfold raise_for_status. cbn [provider_failed] in Hfailed.
  destruct ((400 <=? status_code) && (status_code <? 600))%Z;
    [reflexivity |].
  destruct body; [discriminate | reflexivity].
Qed.

Lemma get_forecast_empty (self : WeatherService) (lat lon : Q)
    (date : option string) (status_code : Z) (data items : json) :
  (forall url params,
     requests_get url params = Reply status_code (Some data)) ->
  getitem data "list" = Ok items ->
  truthy items = false ->
  get_forecast requests_get utcnow_isoformat int_of_str self lat lon date
  = Ok (_mock_weather_data utcnow_isoformat).
Proof.
  intros Hreply Hlist Hempty. unfold get_forecast.
  destruct (String.eqb (w_api_key self) ""); [reflexivity |].
  unfold forecast_body. rewrite Hreply.
  destruct (raise_for_status status_code) as [[] | e]; [| reflexivity].
  cbn [bind response_json]. rewrite Hlist. cbn [bind].
  rewrite Hempty. reflexivity.
Qed.

Lemma get_forecast_item (self : WeatherService) (lat lon : Q)
    (date : option string)
    (temp humidity speed feels_like : Q) (pop : option Q)
    (condition description : string) :
  w_api_key self <> "" ->
  (forall url params,
     requests_get url params
     = Reply 200 (Some (forecast_ok temp humidity speed feels_like pop
                                    condition description))) ->
  get_forecast requests_get utcnow_isoformat int_of_str self lat lon date
  = Ok (forecast_of utcnow_isoformat humidity condition description
          (int int_of_str (JNum temp))
          (percent int_of_str
             (JNum match pop with Some p => p | None => 0 end))
          (int int_of_str (JNum speed))
          (int int_of_str (JNum feels_like))).
Proof.
  intros Hkey Hreply. unfold get_forecast.
  apply String.eqb_neq in Hkey. rewrite Hkey.
  unfold forecast_body. rewrite Hreply. unfold forecast_ok, forecast_of.
  destruct pop as [p |];
    cbn [raise_for_status Z.leb Z.ltb Z.compare Pos.compare
         Pos.compare_cont andb bind response_json getitem lookup
         String.eqb Ascii.eqb Bool.eqb truthy getitem0 dict_get app];
    generalize (int int_of_str (JNum temp));
    generalize (int int_of_str (JNum speed));
    generalize (int int_of_str (JNum feels_like));
    match goal with
    | |- context [percent int_of_str ?v] =>
        generalize (percent int_of_str v)
    end;
    intros [precipitation_chance | e1] [feels | e2] [wind_speed | e3]
           [temperature | e4];
    reflexivity.
Qed.

Lemma int_integer (z : Z) : int int_of_str (JNum (inject_Z z)) = Ok z.
Proof.
  cbn [int]. unfold decode, integral. cbn [inject_Z Qnum Qden].
  rewrite Z.mod_1_r, Z.div_1_r. reflexivity.
Qed.

Lemma percent_integer (z : Z) :
  percent int_of_str (JNum (inject_Z z)) = Ok (z * 100)%Z.
Proof.
  cbn [percent]. unfold decode, integral. cbn [inject_Z Qnum Qden].
  rewrite Z.mod_1_r, Z.div_1_r. reflexivity.
Qed.

End Forecast.

(** Truncation is that of the float: 0.29 times 100 is a little less than
    29 as a float, 0.35 times 100 is 35. *)
Example percent_of_float :
  Providers.percent (fun _ => None) (Providers.JNum (29 # 100))
  = Providers.Ok 28
  /\ Providers.percent (fun _ => None) (Providers.JNum (35 # 100))
     = Providers.Ok 35
  /\ Providers.int (fun _ => None) (Providers.JNum (725 # 10))
     = Providers.Ok 72
  /\ Providers.int (fun _ => None) (Providers.JNum (-(725 # 10)))
     = Providers.Ok (-72).
Proof. repeat split; vm_compute; reflexivity. Qed.

(** X14. [get_forecast] degrades like the current-weather call and reads
    only the first forecast item.  With an empty key, a request that
    raises, an error status, a body that is not JSON, or an empty
    ["list"], it returns the mock weather payload.  On a well-formed
    answer it returns the temperature, wind speed and felt temperature of
    the first item as [int] makes them and its probability of
    precipitation as [int(pop * 100)], 0 when the item has none, or the
    mock payload when one of these conversions raises; an integer is kept
    as it is, respectively multiplied by 100.  The [date] argument has no
    influence on the answer. *)
Theorem get_forecast_behaviour
    (requests_get : string -> list (string * Providers.json)
                    -> Providers.reply)
    (utcnow_isoformat : string) (int_of_str : string -> option Z)
    (self : Providers.WeatherService) (lat lon : Q) (date : option string) :
  (Providers.w_api_key self = ""
   \/ (exists r, (forall url params, requests_get url params = r)
                 /\ provider_failed r = true)
   \/ (exists status_code data items,
         (forall url params,
            requests_get url params
            = Providers.Reply status_code (Some data))
         /\ Providers.getitem data "list" = Providers.Ok items
         /\ Providers.truthy items = false) ->
   Providers.get_forecast requests_get utcnow_isoformat int_of_str self
     lat lon date
   = Providers.Ok (Providers._mock_weather_data utcnow_isoformat))
  /\ (forall temp humidity speed feels_like pop condition description,
        Providers.w_api_key self <> "" ->
        (forall url params,
           requests_get url params
           = Providers.Reply 200
               (Some (forecast_ok temp humidity speed feels_like pop
                                  condition description))) ->
        Providers.get_forecast requests_get utcnow_isoformat int_of_str
          self lat lon date
        = Providers.Ok
            (forecast_of utcnow_isoformat humidity condition description
               (Providers.int int_of_str (Providers.JNum temp))
               (Providers.percent int_of_str
                  (Providers.JNum match pop with
                                  | Some p => p
                                  | None => 0
                                  end))
               (Providers.int int_of_str (Providers.JNum speed))
               (Providers.int int_of_str (Providers.JNum feels_like))))
  /\ (forall z,
        Providers.int int_of_str (Providers.JNum (inject_Z z))
        = Providers.Ok z
        /\ Providers.percent int_of_str (Providers.JNum (inject_Z z))
           = Providers.Ok (z * 100)%Z)
  /\ (forall date',
        Providers.get_forecast requests_get utcnow_isoformat int_of_str
          self lat lon date'
        = Providers.get_forecast requests_get utcnow_isoformat int_of_str
            self lat lon date).
Proof.
  split; [| split; [| split]].
  - intros [Hkey | [(r & Hreply & Hfailed)
                   | (status_code & data & items & Hreply & Hl & He)]].
    + unfold Providers.get_forecast. rewrite Hkey. reflexivity.
    + apply get_forecast_failed with (r := r); assumption.
    + apply get_forecast_empty
        with (status_code := status_code) (data := data) (items := items);
        assumption.
  - intros temp humidity speed feels_like pop condition description
           Hkey Hreply.
    apply get_forecast_item; assumption.
  - intros z. split; [apply int_integer | apply percent_integer].
  - intros date'. reflexivity.
Qed.

Lemma get_forecast_behaviour_witness :
  exists payload,
    Providers.get_forecast
      (fun _ _ => Providers.Reply 200
                    (Some (forecast_ok (725 # 10) 40 (99 # 10) 70
                                       (Some (29 # 100)) "Rain"
                                       "light rain")))
      "2026-06-11T18:00:00" (fun _ => None) Demo.weather 0 0
      (Some "2026-06-12")
    = Providers.Ok payload
    /\ Providers.getitem payload "temperature"
       = Providers.Ok (Providers.JNum 72)
    /\ Providers.getitem payload "precipitation_chance"
       = Providers.Ok (Providers.JNum 28).
Proof.
  destruct (get_forecast_behaviour
              (fun _ _ => Providers.Reply 200
                            (Some (forecast_ok (725 # 10) 40 (99 # 10) 70
                                               (Some (29 # 100)) "Rain"
                                               "light rain")))
              "2026-06-11T18:00:00" (fun _ => None) Demo.weather 0 0
              (Some "2026-06-12")) as (_ & Hitem & _).
  eexists. split.
  - apply (Hitem (725 # 10)%Q 40%Q (99 # 10)%Q 70%Q (Some (29 # 100)%Q)
                 "Rain" "light rain").
    + discriminate.
    + reflexivity.
  - split; vm_compute; reflexivity.
Defined.

Ltac decide_comparisons :=
  repeat match goal with
         | |- context [(?a <=? ?b)%Z] =>
             first [ replace (a <=? b)%Z with true
                       by (symmetry; apply Z.leb_le; lia)
                   | replace (a <=? b)%Z with false
                       by (symmetry; apply Z.leb_gt; lia) ]
         | |- context [(?a <? ?b)%Z] =>
             first [ replace (a <? b)%Z with true
                       by (symmetry; apply Z.ltb_lt; lia)
                   | replace (a <? b)%Z with false
                       by (symmetry; apply Z.ltb_ge; lia) ]
         end.

(** X16. The crowd forecast depends on the hour alone, the hour of
    [target_time] or of the clock when no time is given: the level is
    "heavy" from 16 to 19, "moderate" from 12 to 15 and "light" at every
    other hour; parking is "limited" exactly when the level is "heavy";
    and the percentage is one of 15, 25, 55, 85, with the three waiting
    times its quotients by 10, 8 and 15. *)
Theorem crowd_forecast_by_hour (utcnow_hour : Z) (utcnow_isoformat : string)
    (stadium_id : string) (match_id target_time : option Z) :
  let hour := match target_time with
              | Some h => h
              | None => utcnow_hour
              end in
  let payload := Providers.get_crowd_forecast utcnow_hour utcnow_isoformat
                   stadium_id match_id target_time in
  (Providers.getitem payload "crowd_level"
   = Providers.Ok (Providers.JStr "heavy") <-> 16 <= hour < 20)
  /\ (Providers.getitem payload "crowd_level"
      = Providers.Ok (Providers.JStr "moderate") <-> 12 <= hour < 16)
  /\ (Providers.getitem payload "crowd_level"
      = Providers.Ok (Providers.JStr "light") <-> hour < 12 \/ 20 <= hour)
  /\ (Providers.getitem payload "parking_availability"
      = Providers.Ok (Providers.JStr "limited") <-> 16 <= hour < 20)
  /\ (Providers.getitem payload "parking_availability"
      = Providers.Ok (Providers.JStr "available")
      <-> hour < 16 \/ 20 <= hour)
  /\ exists percentage,
       In percentage [15; 25; 55; 85]
       /\ Providers.getitem payload "crowd_percentage"
          = Providers.Ok (Providers.JNum (inject_Z percentage))
       /\ Providers.getitem payload "estimated_wait_times"
          = Providers.Ok
              (Providers.JObj
                 [ ("security",
                    Providers.JStr (str_int (percentage / 10) ++ " minutes"));
                   ("concessions",
                    Providers.JStr (str_int (percentage / 8) ++ " minutes"));
                   ("restrooms",
                    Providers.JStr
                      (str_int (percentage / 15) ++ " minutes")) ]).
Proof.
  cbv zeta. unfold Providers.get_crowd_forecast.
  set (hour := match target_time with
               | Some h => h
               | None => utcnow_hour
               end).
  assert (Hcases : hour < 8 \/ 8 <= hour < 12 \/ 12 <= hour < 16
                   \/ 16 <= hour < 20 \/ 20 <= hour) by lia.
  destruct Hcases as [H | [H | [H | [H | H]]]];
    decide_comparisons; cbn [andb];
    (split; [| split; [| split; [| split; [| split]]]]);
    try (split; [intros [=] | intros; try reflexivity]; lia);
    (eexists; split; [| split; reflexivity]; cbn; tauto).
Qed.

Lemma crowd_forecast_by_hour_witness :
  Providers.getitem
    (Providers.get_crowd_forecast 9 "2026-06-11T09:00:00" "metlife-stadium"
                                  (Some 104) (Some 17))
    "crowd_level"
  = Providers.Ok (Providers.JStr "heavy")
  /\ Providers.getitem
       (Providers.get_crowd_forecast 9 "2026-06-11T09:00:00"
                                     "metlife-stadium" (Some 104) (Some 17))
       "parking_availability"
     = Providers.Ok (Providers.JStr "limited").
Proof.
  destruct (crowd_forecast_by_hour 9 "2026-06-11T09:00:00"
              "metlife-stadium" (Some 104) (Some 17))
    as (Hheavy & _ & _ & Hparking & _).
  split; [apply Hheavy | apply Hparking]; lia.
Defined.

(** X17. In a store reached from a fresh database by any sequence of
    requests, a listing asked with a token that verifies never fails: the
    texts of [match_ids] all decode, so [get_user_schedules] returns, for
    every user id of the path, and leaves the store as it is. *)
Theorem listing_never_fails {L : Libs} (rs : list (request * Z))
    (user_id subject : string) (t : token) (now : Z) :
  verify_token t now = Return subject ->
  exists es,
    get_user_schedules user_id t now (run rs empty_db)
    = (run rs empty_db,
       Return {| Listing.user_id := user_id; Listing.schedules := es |})
    /\ List.length es = List.length (schedules_of user_id (run rs empty_db)).
Proof.
  intros Hver.
  destruct (get_user_schedules_rows user_id subject t now (run rs empty_db)
              (proj2 (reachable_ok rs)) Hver) as (es & Hget & Hrel).
  exists es. split; [exact Hget |].
  symmetry. exact (Forall2_length Hrel).
Qed.

Lemma listing_never_fails_witness :
  exists es,
    get_user_schedules (L := symbolic_libs) Demo.alice_id Demo.bob_token 3000
                       Demo.store
    = (Demo.store,
       Return {| Listing.user_id := Demo.alice_id;
                 Listing.schedules := es |})
    /\ List.length es = List.length (schedules_of Demo.alice_id Demo.store).
Proof.
  apply (listing_never_fails (L := symbolic_libs)
           [ (Register Demo.alice, 1000);
             (Register Demo.bob, 1000);
             (CreateSchedule Demo.my_plan Demo.alice_token, 2000) ]
           Demo.alice_id Demo.bob_id Demo.bob_token 3000).
  reflexivity.
Defined.
